(** * deepbots-evo: the CartPole controllers

    A shallow embedding of the three controllers of the repository

      - examples/multi_cartpole/controllers/robot_controller/robot_controller.py
      - examples/cartpole/cartpole_continuous/controllers/robot_controller/robot_controller.py
      - examples/cartpole/cartpole_continuous/controllers/supervisor_manager/supervisor_controller.py

    and the properties of the message protocol and of the episode logic
    that the specification states about them.

    Conventions.
      - A Python [str] is carried as its UTF-8 byte sequence, one Rocq
        character per byte.  [encode("utf-8")] gives those bytes;
        [decode("utf-8")] checks that the bytes it is given are well-formed
        UTF-8 and raises [UnicodeDecodeError] when they are not.  The comma
        is an ASCII byte and never part of a multi-byte sequence, so
        splitting the bytes on it is splitting the code points on it; the
        last character of a string is its last code point, one to four
        bytes.
      - A motor velocity is a binary64 value ([binary64]: signed zeros,
        finite values, infinities, NaN), and the one product that the code
        computes on a velocity is the IEEE 754 product, rounded to nearest.
      - The other floats (sensor readings, positions, scores) are only
        compared, rounded to two decimals, rescaled or printed; each is
        carried as the rational that a finite binary64 value denotes.
      - A Python [int] is a [Z].
      - What [int(s)], [float(s)] and [str(x)] do on strings belongs to the
        interpreter: the controllers are read over any such conversions
        ([PyInt], [PyFloat]).
      - A method is a computation over the state of the simulated devices
        that either returns or raises; the state reached when it raises is
        kept, as it is in Python. *)

From Stdlib Require Import ZArith QArith Qabs Qround List String Ascii Bool Lia Lqa.
From Stdlib Require Import DecimalString Strings.Byte Floats.SpecFloat.
Import ListNotations.

Local Open Scope Z_scope.
Local Open Scope string_scope.
Local Open Scope list_scope.

(** ** Python: exceptions and computations that may raise *)

(** The exceptions that the controllers can raise.  ([UnicodeDecodeError]
    is a kind of [ValueError] in Python; nothing in the controllers catches
    either.) *)
Inductive exn : Type :=
| IndexError
| ValueError
| UnicodeDecodeError
| TypeError (msg : string)
| AssertionError (msg : string).

Inductive outcome (A : Type) : Type :=
| Return (a : A)
| Raise (e : exn).

Arguments Return {A} a.
Arguments Raise {A} e.

(** ** Python: the string builtins the controllers call *)

(** [s.split(sep)] for a one-character separator: never the empty list. *)
Fixpoint split (sep : ascii) (s : string) : list string :=
  match s with
  | EmptyString => [EmptyString]
  | String c s' =>
      if Ascii.eqb c sep then EmptyString :: split sep s'
      else match split sep s' with
           | [] => [String c EmptyString]
           | tok :: toks => String c tok :: toks
           end
  end.

(** [sep.join(l)]. *)
Definition join (sep : string) (l : list string) : string := String.concat sep l.

(** [c in s] for a character. *)
Fixpoint contains (c : ascii) (s : string) : bool :=
  match s with
  | EmptyString => false
  | String c' s' => Ascii.eqb c' c || contains c s'
  end.

(** [str(n)] on an int. *)
Definition str_of_int (n : Z) : string := NilZero.string_of_int (Z.to_int n).

(** The bytes [10xxxxxx], which continue a code point. *)
Definition is_continuation (c : ascii) : bool :=
  let n := nat_of_ascii c in
  (Nat.leb 128 n && Nat.leb n 191)%bool.

Fixpoint all_continuation (s : string) : bool :=
  match s with
  | EmptyString => true
  | String c s' => is_continuation c && all_continuation s'
  end.

(** [s[-1]]: the last code point of [s], that is, its last byte that is
    not a continuation byte together with the continuation bytes after it. *)
Fixpoint last_char (s : string) : outcome string :=
  match s with
  | EmptyString => Raise IndexError
  | String c s' => if all_continuation s' then Return s else last_char s'
  end.

(** [int(s)] on a string, base ten, belongs to the interpreter (white space,
    sign, digit-group underscores, the decimal digits of every script, the
    limit on the number of digits); [int_of_str s = None] is [ValueError].
    Two facts about it are used: the ten ASCII digits read as their
    values; and a string of a single character that reads as an integer is
    a decimal digit, so that the integer is between 0 and 9. *)
Class PyInt : Type := {
  int_of_str : string -> option Z;
  int_of_digit :
    forall d : Z, 0 <= d <= 9 -> int_of_str (str_of_int d) = Some d;
  int_of_char :
    forall (s c : string) (n : Z),
      last_char s = Return c -> int_of_str c = Some n -> 0 <= n <= 9
}.

(** [int(x)] on a float: truncation towards zero. *)
Definition int_of_float (x : Q) : Z := Z.quot (Qnum x) (Zpos (Qden x)).

(** Round half to even, to an integer. *)
Definition round_half_even (x : Q) : Z :=
  let n := Qnum x in
  let d := Zpos (Qden x) in
  let fl := n / d in
  match (2 * (n mod d) ?= d) with
  | Lt => fl
  | Gt => fl + 1
  | Eq => if Z.even fl then fl else fl + 1
  end.

(** [round(x, 2)] on a float: Python rounds the exact value of [x], ties to
    even, and returns the binary64 value nearest to the two-decimal result;
    that value stands here for the decimal itself. *)
Definition round2 (x : Q) : Q := Qmake (round_half_even (x * 100)) 100.

(** [a > b] on floats. *)
Definition Qgtb (a b : Q) : bool := negb (Qle_bool a b).

(** A binary64 value: a signed zero, a finite value [(-1)^s * m * 2^e], an
    infinity or NaN. *)
Definition binary64 : Type := spec_float.

(** [x * y] on floats: the IEEE 754 product, rounded to nearest, ties to
    even. *)
Definition fmul (x y : binary64) : binary64 := SFmul 53 1024 x y.

(** The float constant written with the integer [n]: [b64 5] is [5.0],
    [b64 (-5)] is [-5.0], [b64 0] is [0.0]. *)
Definition b64 (n : Z) : binary64 := binary_normalize 53 1024 n 0 false.

(** The rational that a zero or a finite value denotes. *)
Definition value (x : binary64) : option Q :=
  match x with
  | S754_zero _ => Some 0%Q
  | S754_finite s m e => Some ((if s then -1 else 1) * inject_Z (Zpos m) * 2 ^ e)%Q
  | S754_infinity _ | S754_nan => None
  end.

(** Strings of ASCII characters. *)
Fixpoint is_ascii (s : string) : bool :=
  match s with
  | EmptyString => true
  | String c s' => Nat.ltb (nat_of_ascii c) 128 && is_ascii s'
  end.

(** The conversions between floats and strings.  Their algorithms (correctly
    rounded parsing, shortest round-trip printing) belong to the interpreter;
    the controllers are read over any of them.  [binary64_of_str s] is the
    value of [float(s)], infinities and NaN included, for the reading that
    the code multiplies; [float_of_str s] is the reading as a rational, for
    the readings that the code only compares, rounds or rescales.  For
    both, [None] is [ValueError].  [str_of_float x] is [str(x)], which is
    written in ASCII. *)
Class PyFloat : Type := {
  float_of_str : string -> option Q;
  binary64_of_str : string -> option binary64;
  str_of_float : Q -> string;
  str_of_float_ascii : forall x : Q, is_ascii (str_of_float x) = true
}.

(** The scalars that travel in a frame, and [str] on them. *)
Inductive scalar : Type :=
| Float (x : Q)
| Int (n : Z)
| Str (s : string).

Definition str `{PyFloat} (v : scalar) : string :=
  match v with
  | Float x => str_of_float x
  | Int n => str_of_int n
  | Str s => s
  end.

(** What [create_message] may hand to [handle_emitter]. *)
Inductive pyobject : Type :=
| PyList (l : list scalar)
| PyStr (s : string)
| PyNone.

(** ** Python: UTF-8 *)

(** [s.encode("utf-8")]: the bytes that carry [s].  (A string with lone
    surrogates, on which Python raises, is not carried by any bytes; what
    the controllers encode is the string form of a float, which is ASCII.) *)
Definition encode_utf8 (s : string) : list byte := list_byte_of_string s.

(** Well-formed UTF-8 is read byte by byte: either a code point has just
    ended, or the next byte must lie in a given range and be followed by a
    given number of continuation bytes.  The ranges are those of the Unicode
    standard (no overlong form, no surrogate, nothing above U+10FFFF). *)
Inductive utf8_state : Type :=
| Boundary
| Within (lo hi : nat) (more : nat).

Definition between (lo hi n : nat) : bool := (Nat.leb lo n && Nat.leb n hi)%bool.

Definition utf8_step (st : utf8_state) (b : nat) : option utf8_state :=
  match st with
  | Boundary =>
      if between 0x00 0x7F b then Some Boundary
      else if between 0xC2 0xDF b then Some (Within 0x80 0xBF 0)
      else if between 0xE0 0xE0 b then Some (Within 0xA0 0xBF 1)
      else if between 0xE1 0xEC b then Some (Within 0x80 0xBF 1)
      else if between 0xED 0xED b then Some (Within 0x80 0x9F 1)
      else if between 0xEE 0xEF b then Some (Within 0x80 0xBF 1)
      else if between 0xF0 0xF0 b then Some (Within 0x90 0xBF 2)
      else if between 0xF1 0xF3 b then Some (Within 0x80 0xBF 2)
      else if between 0xF4 0xF4 b then Some (Within 0x80 0x8F 2)
      else None
  | Within lo hi more =>
      if between lo hi b then
        Some match more with
             | O => Boundary
             | S more' => Within 0x80 0xBF more'
             end
      else None
  end.

Fixpoint utf8_run (st : utf8_state) (bs : list byte) : option utf8_state :=
  match bs with
  | [] => Some st
  | b :: bs' =>
      match utf8_step st (Byte.to_nat b) with
      | Some st' => utf8_run st' bs'
      | None => None
      end
  end.

Definition well_formed_utf8 (bs : list byte) : bool :=
  match utf8_run Boundary bs with
  | Some Boundary => true
  | _ => false
  end.

(** [b.decode("utf-8")]. *)
Definition decode_utf8 (b : list byte) : outcome string :=
  if well_formed_utf8 b then Return (string_of_list_byte b)
  else Raise UnicodeDecodeError.

(** ** Message codec: the wire format of both directions *)

Definition comma : ascii := ","%char.

(** [",".join(map(str, data))], as in [handle_emitter]. *)
Definition encode `{PyFloat} (fields : list scalar) : string :=
  join "," (map str fields).

(** [message.split(",")], as in [handle_receiver]. *)
Definition decode (frame : string) : list string := split comma frame.

(** ** Webots: the devices of one robot node

    The simulator is an external collaborator; what follows is the part of
    its device interface that the controllers call, as state. *)

(** A motor target position: [float('inf')] selects velocity control. *)
Inductive position : Type :=
| Infinity
| Finite (x : Q).

Record Motor : Type := {
  target_position : position;
  target_velocity : binary64
}.

Inductive wheel_id : Type := wheel1 | wheel2 | wheel3 | wheel4.

Record Motors : Type := {
  motor1 : Motor;
  motor2 : Motor;
  motor3 : Motor;
  motor4 : Motor
}.

Definition get_motor (w : wheel_id) (ms : Motors) : Motor :=
  match w with
  | wheel1 => motor1 ms
  | wheel2 => motor2 ms
  | wheel3 => motor3 ms
  | wheel4 => motor4 ms
  end.

Definition set_motor (w : wheel_id) (m : Motor) (ms : Motors) : Motors :=
  match w with
  | wheel1 => {| motor1 := m; motor2 := motor2 ms; motor3 := motor3 ms; motor4 := motor4 ms |}
  | wheel2 => {| motor1 := motor1 ms; motor2 := m; motor3 := motor3 ms; motor4 := motor4 ms |}
  | wheel3 => {| motor1 := motor1 ms; motor2 := motor2 ms; motor3 := m; motor4 := motor4 ms |}
  | wheel4 => {| motor1 := motor1 ms; motor2 := motor2 ms; motor3 := motor3 ms; motor4 := m |}
  end.

Record Emitter : Type := {
  emitter_channel : Z;
  sent : list (list byte)            (* frames handed to the link, oldest first *)
}.

Record Receiver : Type := {
  receiver_channel : Z;
  receiver_period : option Z;        (* [None]: not enabled *)
  queue : list (list byte)           (* pending packets, head first *)
}.

Record PositionSensor : Type := {
  sensor_period : option Z;
  sensor_value : Q
}.

Inductive device : Type :=
| TheEmitter
| TheReceiver
| PolePosSensor.

(** One entry per call into the simulator, in program order. *)
Inductive event : Type :=
| EStep (ms : Z) (result : Z)
| ESetChannel (d : device) (channel : Z)
| EEnable (d : device) (ms : Z)
| ESetPosition (w : wheel_id) (p : position)
| ESetVelocity (w : wheel_id) (v : binary64)
| EGetQueueLength (n : nat)
| EGetData (packet : list byte)
| ENextPacket
| EGetValue (v : Q)
| ESend (packet : list byte).

Record Webots : Type := {
  name : string;
  basicTimeStep : Q;
  emitter : Emitter;
  receiver : Receiver;
  polePosSensor : PositionSensor;
  motors : Motors;
  calls : list event                 (* oldest first *)
}.

Definition with_emitter (e : Emitter) (w : Webots) : Webots :=
  {| name := name w; basicTimeStep := basicTimeStep w; emitter := e;
     receiver := receiver w; polePosSensor := polePosSensor w;
     motors := motors w; calls := calls w |}.

Definition with_receiver (r : Receiver) (w : Webots) : Webots :=
  {| name := name w; basicTimeStep := basicTimeStep w; emitter := emitter w;
     receiver := r; polePosSensor := polePosSensor w;
     motors := motors w; calls := calls w |}.

Definition with_sensor (s : PositionSensor) (w : Webots) : Webots :=
  {| name := name w; basicTimeStep := basicTimeStep w; emitter := emitter w;
     receiver := receiver w; polePosSensor := s;
     motors := motors w; calls := calls w |}.

Definition with_motors (ms : Motors) (w : Webots) : Webots :=
  {| name := name w; basicTimeStep := basicTimeStep w; emitter := emitter w;
     receiver := receiver w; polePosSensor := polePosSensor w;
     motors := ms; calls := calls w |}.

Definition logged (e : event) (w : Webots) : Webots :=
  {| name := name w; basicTimeStep := basicTimeStep w; emitter := emitter w;
     receiver := receiver w; polePosSensor := polePosSensor w;
     motors := motors w; calls := calls w ++ [e] |}.

(** ** Controller methods: state, and exceptions *)

Definition M (S A : Type) : Type := S -> outcome A * S.

Definition ret {S A} (a : A) : M S A := fun w => (Return a, w).

Definition raise {S A} (e : exn) : M S A := fun w => (Raise e, w).

Definition bind {S A B} (m : M S A) (k : A -> M S B) : M S B :=
  fun w =>
    match m w with
    | (Return a, w') => k a w'
    | (Raise e, w') => (Raise e, w')
    end.

Declare Scope py_scope.
Delimit Scope py_scope with py.
Notation "x <- m ;; k" := (bind m (fun x => k))
  (at level 61, m at next level, right associativity) : py_scope.
Notation "m ;; k" := (bind m (fun _ => k))
  (at level 61, right associativity) : py_scope.
Local Open Scope py_scope.

Definition lift {S A} (o : outcome A) : M S A := fun w => (o, w).

(** [for x in l: body x]. *)
Fixpoint for_each {S A} (l : list A) (body : A -> M S unit) : M S unit :=
  match l with
  | [] => ret tt
  | x :: l' => body x ;; for_each l' body
  end.

(** [message[0]]. *)
Definition item0 {S} (message : list string) : M S string :=
  match message with
  | [] => raise IndexError
  | m0 :: _ => ret m0
  end.

(** [int(s)] and [float(s)] as calls that may raise; [float64] is [float]
    where the code computes with the result. *)
Definition int `{PyInt} {S} (s : string) : M S Z :=
  match int_of_str s with
  | Some n => ret n
  | None => raise ValueError
  end.

Definition float `{PyFloat} {S} (s : string) : M S Q :=
  match float_of_str s with
  | Some x => ret x
  | None => raise ValueError
  end.

Definition float64 `{PyFloat} {S} (s : string) : M S binary64 :=
  match binary64_of_str s with
  | Some x => ret x
  | None => raise ValueError
  end.

(** [assert cond, msg], assertions enabled. *)
Definition assert {S} (cond : bool) (msg : string) : M S unit :=
  if cond then ret tt else raise (AssertionError msg).

(** A method of a robot controller. *)
Definition Robot (A : Type) : Type := M Webots A.

(** *** Device calls *)

Definition getName : Robot string := fun w => (Return (name w), w).

Definition getBasicTimeStep : Robot Q := fun w => (Return (basicTimeStep w), w).

Definition setChannel (d : device) (c : Z) : Robot unit :=
  fun w =>
    let w' :=
      match d with
      | TheEmitter => with_emitter {| emitter_channel := c; sent := sent (emitter w) |} w
      | TheReceiver =>
          with_receiver {| receiver_channel := c;
                           receiver_period := receiver_period (receiver w);
                           queue := queue (receiver w) |} w
      | PolePosSensor => w
      end in
    (Return tt, logged (ESetChannel d c) w').

Definition enable (d : device) (ms : Z) : Robot unit :=
  fun w =>
    let w' :=
      match d with
      | TheEmitter => w
      | TheReceiver =>
          with_receiver {| receiver_channel := receiver_channel (receiver w);
                           receiver_period := Some ms;
                           queue := queue (receiver w) |} w
      | PolePosSensor =>
          with_sensor {| sensor_period := Some ms;
                         sensor_value := sensor_value (polePosSensor w) |} w
      end in
    (Return tt, logged (EEnable d ms) w').

Definition setPosition (wh : wheel_id) (p : position) : Robot unit :=
  fun w =>
    let m := get_motor wh (motors w) in
    (Return tt,
     logged (ESetPosition wh p)
       (with_motors
          (set_motor wh {| target_position := p; target_velocity := target_velocity m |}
             (motors w)) w)).

Definition setVelocity (wh : wheel_id) (v : binary64) : Robot unit :=
  fun w =>
    let m := get_motor wh (motors w) in
    (Return tt,
     logged (ESetVelocity wh v)
       (with_motors
          (set_motor wh {| target_position := target_position m; target_velocity := v |}
             (motors w)) w)).

Definition getQueueLength : Robot nat :=
  fun w =>
    let n := List.length (queue (receiver w)) in
    (Return n, logged (EGetQueueLength n) w).

(** The packet at the head of the queue (no packet: no bytes). *)
Definition getData : Robot (list byte) :=
  fun w =>
    let packet := hd [] (queue (receiver w)) in
    (Return packet, logged (EGetData packet) w).

Definition nextPacket : Robot unit :=
  fun w =>
    (Return tt,
     logged ENextPacket
       (with_receiver {| receiver_channel := receiver_channel (receiver w);
                         receiver_period := receiver_period (receiver w);
                         queue := tl (queue (receiver w)) |} w)).

Definition getValue : Robot Q :=
  fun w =>
    let v := sensor_value (polePosSensor w) in
    (Return v, logged (EGetValue v) w).

Definition send (packet : list byte) : Robot unit :=
  fun w =>
    (Return tt,
     logged (ESend packet)
       (with_emitter {| emitter_channel := emitter_channel (emitter w);
                        sent := sent (emitter w) ++ [packet] |} w)).

(** What one call of [robot.step] brings from the simulator: its return
    value, the packets that arrived on the receiver's channel during the
    step, and the new reading of the pole sensor. *)
Record tick : Type := {
  step_result : Z;
  arrivals : list (list byte);
  pole_angle : Q
}.

Definition step (t : tick) (ms : Z) : Robot Z :=
  fun w =>
    let w1 :=
      with_receiver {| receiver_channel := receiver_channel (receiver w);
                       receiver_period := receiver_period (receiver w);
                       queue := queue (receiver w) ++ arrivals t |} w in
    let w2 :=
      with_sensor {| sensor_period := sensor_period (polePosSensor w);
                     sensor_value := pole_angle t |} w1 in
    (Return (step_result t), logged (EStep ms (step_result t)) w2).

(** The four motor handles of [self.wheels], as [setup_motors] stores them. *)
Definition wheels : list wheel_id := [wheel1; wheel2; wheel3; wheel4].

(** ** multi_cartpole/controllers/robot_controller/robot_controller.py *)

Module MultiCartPole.
Section Controller.
Context {I : PyInt} {F : PyFloat}.

(** The attributes that [__init__] computes. *)
Record CartPoleRobot : Type := {
  robot_num : Z;
  timestep : Z
}.

(** [initialize_comms]: looks up the two devices and enables the receiver. *)
Definition initialize_comms (timestep : Z) : Robot unit :=
  enable TheReceiver timestep.

Definition setup_motors : Robot unit :=
  for_each wheels (fun wh =>
    setPosition wh Infinity ;;
    setVelocity wh (b64 0)).

(** [super().__init__()] is the constructor of deepbots'
    [RobotEmitterReceiverCSV]: it provides [self.robot] and the handle
    [self.receiver] that [handle_receiver] reads from.  Both [self.receiver]
    and the [self.reciever] assigned below are handles of the one device
    named "receiver". *)
Definition __init__ : Robot CartPoleRobot :=
  nm <- getName ;;
  c <- lift (last_char nm) ;;
  robot_num <- int c ;;
  bts <- getBasicTimeStep ;;
  let timestep := int_of_float bts in
  initialize_comms timestep ;;
  setChannel TheEmitter robot_num ;;
  setChannel TheReceiver robot_num ;;
  enable PolePosSensor timestep ;;
  setup_motors ;;
  ret {| robot_num := robot_num; timestep := timestep |}.

Definition create_message : Robot pyobject :=
  v <- getValue ;;
  ret (PyList [Float v]).

Definition use_message_data (message : list string) : Robot unit :=
  m0 <- item0 message ;;
  action <- int m0 ;;
  assert ((action =? 0)%Z || (action =? 1)%Z)
    ("CartPoleRobot controller got incorrect action value: " ++ str_of_int action) ;;
  let motorSpeed := if (action =? 0)%Z then b64 5 else b64 (-5) in
  for_each wheels (fun wh =>
    setPosition wh Infinity ;;
    setVelocity wh motorSpeed).

(** One pass of the loop of [handle_receiver]. *)
Definition receive_one : Robot unit :=
  packet <- getData ;;
  message <- lift (decode_utf8 packet) ;;
  let message := decode message in
  use_message_data message ;;
  nextPacket.

(** [while self.receiver.getQueueLength() > 0: body].  A pass removes one
    packet and adds none, so [passes], the length of the queue on entry,
    bounds the number of passes. *)
Fixpoint while_queued (passes : nat) (body : Robot unit) : Robot unit :=
  n <- getQueueLength ;;
  if (0 <? n)%nat then
    match passes with
    | O => ret tt
    | S passes' => body ;; while_queued passes' body
    end
  else ret tt.

Definition handle_receiver : Robot unit :=
  fun w => while_queued (List.length (queue (receiver w))) receive_one w.

Definition handle_emitter : Robot unit :=
  data <- create_message ;;
  string_message <-
    match data with
    | PyList l => ret (join "," (map str l))
    | PyStr s => ret s
    | PyNone => raise (TypeError "message must be either a comma-separater string or a 1D list")
    end ;;
  send (encode_utf8 string_message).

(** One pass of the loop of [run], after [step] has returned. *)
Definition run_body : Robot unit :=
  handle_receiver ;;
  handle_emitter.

(** [run], over the ticks the simulator plays: the loop ends when [step]
    returns 1 (or when the simulator stops stepping the controller). *)
Fixpoint run (self : CartPoleRobot) (ticks : list tick) : Robot unit :=
  match ticks with
  | [] => ret tt
  | t :: ticks' =>
      r <- step t (timestep self) ;;
      if negb (r =? 1)%Z then run_body ;; run self ticks'
      else ret tt
  end.

End Controller.
End MultiCartPole.

(** ** cartpole_continuous/controllers/robot_controller/robot_controller.py *)

Module ContinuousCartPole.
Section Controller.
Context {F : PyFloat}.

Definition setup_motors : Robot unit :=
  for_each wheels (fun wh =>
    setPosition wh Infinity ;;
    setVelocity wh (b64 0)).

(** [self.timestep] is set by the constructor of the base class: it is
    taken here as what that constructor leaves. *)
Definition __init__ (timestep : Z) : Robot unit :=
  enable PolePosSensor timestep ;;
  setup_motors.

Definition create_message : Robot (list string) :=
  v <- getValue ;;
  ret [str (Float v)].

Definition use_message_data (message : list string) : Robot unit :=
  m0 <- item0 message ;;
  x <- float64 m0 ;;
  let motorSpeed := fmul x (b64 5) in
  for_each wheels (fun wh =>
    setPosition wh Infinity ;;
    setVelocity wh motorSpeed).

End Controller.
End ContinuousCartPole.

(** ** utilities.normalizeToRange *)

(** Modelled from the spec: [normalizeToRange] is imported by the supervisor
    from [utilities], which is not among the sources at hand.  The
    specification gives its law: [normalize(v, lo, hi, a, b, clip)] maps [v]
    affinely from [[lo, hi]] to [[a, b]]; with [clip] the output is clamped
    to [[a, b]], without it an out-of-range [v] gives an out-of-range
    output.  [clip] defaults to [False] (the call for the cart position
    passes none). *)
Definition normalizeToRange (value minVal maxVal newMin newMax : Q) (clip : bool) : Q :=
  let y := (newMin + (value - minVal) * (newMax - newMin) / (maxVal - minVal))%Q in
  if clip then
    if Qgtb newMin y then newMin
    else if Qgtb y newMax then newMax
    else y
  else y.

(** ** cartpole_continuous/controllers/supervisor_manager/supervisor_controller.py *)

(** [getPosition()] of a node. *)
Record vec3 : Type := {
  x_axis : Q;
  y_axis : Q;
  z_axis : Q
}.

(** [getVelocity()] of a node: linear, then angular. *)
Record vec6 : Type := {
  linear_x : Q;
  linear_y : Q;
  linear_z : Q;
  angular_x : Q;
  angular_y : Q;
  angular_z : Q
}.

Module Supervisor.
Section Controller.
Context {F : PyFloat}.

(** What the supervisor reads from the simulator. *)
Record Scene : Type := {
  robot_position : vec3;             (* self.robot.getPosition() *)
  robot_velocity : vec6;             (* self.robot.getVelocity() *)
  poleEndpoint_velocity : vec6;      (* self.poleEndpoint.getVelocity() *)
  inbox : list (list byte)           (* the queue of its receiver *)
}.

Record CartPoleSupervisor : Type := {
  scene : Scene;
  observationSpace : nat;
  actionSpace : nat;
  messageReceived : option (list string);
  episodeScore : Q;
  episodeScoreList : list Q;
  test : bool
}.

Definition Sup (A : Type) : Type := M CartPoleSupervisor A.

Definition __init__ (sc : Scene) : CartPoleSupervisor :=
  {| scene := sc;
     observationSpace := 4;
     actionSpace := 1;
     messageReceived := None;
     episodeScore := 0;
     episodeScoreList := [];
     test := false |}.

Definition set_messageReceived (m : option (list string)) : Sup unit :=
  fun s =>
    (Return tt,
     {| scene := scene s;
        observationSpace := observationSpace s;
        actionSpace := actionSpace s;
        messageReceived := m;
        episodeScore := episodeScore s;
        episodeScoreList := episodeScoreList s;
        test := test s |}).

(** [handle_receiver] is inherited from deepbots' [SupervisorCSV]: with an
    empty queue it returns [None]; otherwise it decodes the packet at the
    head of the queue, takes it off the queue and returns its
    comma-separated fields. *)
Definition handle_receiver : Sup (option (list string)) :=
  fun s =>
    match inbox (scene s) with
    | [] => (Return None, s)
    | packet :: rest =>
        match decode_utf8 packet with
        | Raise e => (Raise e, s)
        | Return string_message =>
        (Return (Some (decode string_message)),
         {| scene := {| robot_position := robot_position (scene s);
                        robot_velocity := robot_velocity (scene s);
                        poleEndpoint_velocity := poleEndpoint_velocity (scene s);
                        inbox := rest |};
            observationSpace := observationSpace s;
            actionSpace := actionSpace s;
            messageReceived := messageReceived s;
            episodeScore := episodeScore s;
            episodeScoreList := episodeScoreList s;
            test := test s |})
        end
    end.

Definition get_observations : Sup (list Q) :=
  fun s =>
    (let cartPosition :=
       normalizeToRange (x_axis (robot_position (scene s))) (-0.4) 0.4 (-1) 1 false in
     let cartVelocity :=
       normalizeToRange (linear_x (robot_velocity (scene s))) (-0.2) 0.2 (-1) 1 true in
     m <- handle_receiver ;;
     set_messageReceived m ;;
     poleAngle <-
       match m with
       | Some message =>
           m0 <- item0 message ;;
           x <- float m0 ;;
           ret (normalizeToRange x (-0.23) 0.23 (-1) 1 true)
       | None => ret 0%Q
       end ;;
     let endpointVelocity :=
       normalizeToRange (angular_y (poleEndpoint_velocity (scene s))) (-1.5) 1.5 (-1) 1 true in
     ret [cartPosition; cartVelocity; poleAngle; endpointVelocity]) s.

Definition get_default_observation (s : CartPoleSupervisor) : list Q :=
  repeat 0%Q (observationSpace s).

Definition get_reward (action : option Q) : Z := 1.

Definition is_done : Sup bool :=
  fun s =>
    (if Qgtb (episodeScore s) 195 then ret true
     else
       poleAngle <-
         match messageReceived s with
         | Some message =>
             m0 <- item0 message ;;
             x <- float m0 ;;
             ret (round2 x)
         | None => ret 0%Q
         end ;;
       if Qgtb (Qabs poleAngle) 0.261799388 then ret true
       else
         let cartPosition := round2 (x_axis (robot_position (scene s))) in
         if Qgtb (Qabs cartPosition) 0.39 then ret true
         else ret false) s.

(** [np.mean] of a list. *)
Definition mean (l : list Q) : Q :=
  (fold_right Qplus 0 l / inject_Z (Z.of_nat (List.length l)))%Q.

(** [l[-n:]] for a positive [n]. *)
Definition last_n {A} (n : nat) (l : list A) : list A :=
  skipn (List.length l - n) l.

Definition solved (s : CartPoleSupervisor) : bool :=
  if (100 <? List.length (episodeScoreList s))%nat then
    if Qgtb (mean (last_n 100 (episodeScoreList s))) 195 then true
    else false
  else false.

End Controller.
End Supervisor.

(** ** Reference conversions

    Plain decimal notation: integers as an optional sign and ASCII digits,
    floats as an optional sign, digits and at most one point, or [inf],
    [infinity] and [nan]; surrounding white space is skipped.  Floats are
    written exactly.  Enough to run the controllers on the frames of the
    examples below. *)

Definition is_space (c : ascii) : bool :=
  let n := nat_of_ascii c in
  (Nat.eqb n 32 || (Nat.leb 9 n && Nat.leb n 13))%bool.

Fixpoint lstrip (s : string) : string :=
  match s with
  | String c s' => if is_space c then lstrip s' else s
  | EmptyString => EmptyString
  end.

Fixpoint rstrip (s : string) : string :=
  match s with
  | EmptyString => EmptyString
  | String c s' =>
      match rstrip s' with
      | EmptyString => if is_space c then EmptyString else String c EmptyString
      | t => String c t
      end
  end.

Definition strip (s : string) : string := rstrip (lstrip s).

Definition digit_of (c : ascii) : option Z :=
  let n := nat_of_ascii c in
  if (Nat.leb 48 n && Nat.leb n 57)%bool then Some (Z.of_nat (n - 48)) else None.

Fixpoint digits_value (acc : Z) (s : string) : option Z :=
  match s with
  | EmptyString => Some acc
  | String c s' =>
      match digit_of c with
      | Some d => digits_value (10 * acc + d) s'
      | None => None
      end
  end.

Definition decimal_int_of_str (s : string) : option Z :=
  match strip s with
  | EmptyString => None
  | String "-" (String _ _ as ds) => option_map Z.opp (digits_value 0 ds)
  | String "+" (String _ _ as ds) => digits_value 0 ds
  | ds => digits_value 0 ds
  end.

Definition digit_char (d : Z) : ascii := ascii_of_nat (48 + Z.to_nat d).

Fixpoint fraction_digits (n : nat) (r d : Z) : string :=
  match n with
  | O => EmptyString
  | S n' =>
      if (r =? 0)%Z then EmptyString
      else String (digit_char (10 * r / d)) (fraction_digits n' ((10 * r) mod d) d)
  end.

Definition decimal_str_of_float (x : Q) : string :=
  let n := Z.abs (Qnum x) in
  let d := Zpos (Qden x) in
  let frac := fraction_digits 17 (n mod d) d in
  (if (Qnum x <? 0)%Z then "-" else "")
  ++ str_of_int (n / d) ++ "."
  ++ (match frac with EmptyString => "0" | _ => frac end).

(** The sign of a numeral and what follows it. *)
Definition signed_body (s : string) : bool * string :=
  match s with
  | String "-" r => (true, r)
  | String "+" r => (false, r)
  | _ => (false, s)
  end.

(** The value of an unsigned decimal numeral. *)
Definition decimal_magnitude (body : string) : option Q :=
  match split "." body with
  | [ip] =>
      match ip with
      | EmptyString => None
      | _ => option_map inject_Z (digits_value 0 ip)
      end
  | [ip; fp] =>
      match (ip ++ fp)%string with
      | EmptyString => None
      | _ =>
          match digits_value 0 (ip ++ fp) with
          | Some n => Some (Qred (Qmake n (Z.to_pos (10 ^ Z.of_nat (String.length fp)))))
          | None => None
          end
      end
  | _ => None
  end.

Definition decimal_float_of_str (s : string) : option Q :=
  let '(negative, body) := signed_body (strip s) in
  option_map (fun q : Q => if negative then Qopp q else q) (decimal_magnitude body).

(** The binary64 value nearest to a non-negative rational, ties to even,
    with the given sign: the correctly rounded quotient of its numerator by
    its denominator. *)
Definition binary64_of_Q (negative : bool) (q : Q) : binary64 :=
  match Qnum q with
  | Zpos n => SFdiv 53 1024 (S754_finite negative n 0) (S754_finite false (Qden q) 0)
  | _ => S754_zero negative
  end.

Definition lower (c : ascii) : ascii :=
  let n := nat_of_ascii c in
  if (Nat.leb 65 n && Nat.leb n 90)%bool then ascii_of_nat (n + 32) else c.

Fixpoint lowercase (s : string) : string :=
  match s with
  | EmptyString => EmptyString
  | String c s' => String (lower c) (lowercase s')
  end.

Definition decimal_binary64_of_str (s : string) : option binary64 :=
  let '(negative, body) := signed_body (strip s) in
  let word := lowercase body in
  if (String.eqb word "inf" || String.eqb word "infinity")%bool
  then Some (S754_infinity negative)
  else if String.eqb word "nan" then Some S754_nan
  else option_map (binary64_of_Q negative) (decimal_magnitude body).

(** The laws of the reference conversions. *)

Lemma last_char_shape (s c : string) :
  last_char s = Return c ->
  exists b t, c = String b t /\ all_continuation t = true.
Proof.
  induction s as [|a s IH]; cbn; [discriminate|].
  destruct (all_continuation s) eqn:Hs.
  - intros [= <-]. now exists a, s.
  - exact IH.
Qed.

Lemma continuation_not_digit (k : ascii) : is_continuation k = true -> digit_of k = None.
Proof.
  unfold is_continuation, digit_of. intros H.
  apply andb_true_iff in H as [H _]. apply Nat.leb_le in H.
  destruct (Nat.leb 48 (nat_of_ascii k) && Nat.leb (nat_of_ascii k) 57)%bool eqn:E; [|reflexivity].
  apply andb_true_iff in E as [_ E]. apply Nat.leb_le in E. lia.
Qed.

Lemma continuation_not_space (k : ascii) : is_continuation k = true -> is_space k = false.
Proof.
  unfold is_continuation, is_space. intros H.
  apply andb_true_iff in H as [H _]. apply Nat.leb_le in H.
  apply orb_false_iff. split.
  - apply Nat.eqb_neq. lia.
  - apply andb_false_iff. right. apply Nat.leb_gt. lia.
Qed.

Lemma rstrip_continuation (k : ascii) (t : string) :
  all_continuation (String k t) = true -> rstrip (String k t) = String k t.
Proof.
  revert k. induction t as [|k' t IH]; intros k H; cbn in H.
  - apply andb_true_iff in H as [H _]. cbn. now rewrite (continuation_not_space k H).
  - apply andb_true_iff in H as [_ H].
    change (rstrip (String k (String k' t)))
      with (match rstrip (String k' t) with
            | EmptyString => if is_space k then EmptyString else String k EmptyString
            | u => String k u
            end).
    now rewrite (IH k' H).
Qed.

Lemma decimal_int_of_char (s c : string) (n : Z) :
  last_char s = Return c -> decimal_int_of_str c = Some n -> 0 <= n <= 9.
Proof.
  intros Hlast Hint.
  destruct (last_char_shape s c Hlast) as [b [t [-> Ht]]].
  destruct t as [|k t'].
  - destruct b as [[] [] [] [] [] [] [] []]; cbv in Hint; try discriminate;
      injection Hint as <-; lia.
  - exfalso.
    pose proof (rstrip_continuation k t' Ht) as Hu.
    cbn in Ht. apply andb_true_iff in Ht as [Hk _].
    pose proof (continuation_not_space k Hk) as Hsp.
    assert (Hd : forall acc, digits_value acc (String k t') = None)
      by (intros acc; cbn; now rewrite (continuation_not_digit k Hk)).
    assert (Hd' : forall acc a, digits_value acc (String a (String k t')) = None).
    { intros acc a.
      change (digits_value acc (String a (String k t')))
        with (match digit_of a with
              | Some d => digits_value (10 * acc + d) (String k t')
              | None => None
              end).
      destruct (digit_of a); [apply Hd|reflexivity]. }
    unfold decimal_int_of_str, strip in Hint.
    change (lstrip (String b (String k t')))
      with (if is_space b
            then if is_space k then lstrip t' else String k t'
            else String b (String k t')) in Hint.
    rewrite Hsp in Hint.
    destruct (is_space b).
    + rewrite Hu in Hint.
      destruct k as [[] [] [] [] [] [] [] []]; try (cbv in Hk; discriminate Hk);
        cbv beta iota in Hint; rewrite ?Hd in Hint; discriminate.
    + change (rstrip (String b (String k t')))
        with (match rstrip (String k t') with
              | EmptyString => if is_space b then EmptyString else String b EmptyString
              | u => String b u
              end) in Hint.
      rewrite Hu in Hint.
      destruct b as [[] [] [] [] [] [] [] []];
        cbv beta iota in Hint; rewrite ?Hd, ?Hd' in Hint; discriminate.
Qed.

Lemma decimal_int_of_digit (d : Z) :
  0 <= d <= 9 -> decimal_int_of_str (str_of_int d) = Some d.
Proof.
  intros Hd.
  assert (Hcases : d = 0 \/ d = 1 \/ d = 2 \/ d = 3 \/ d = 4
                   \/ d = 5 \/ d = 6 \/ d = 7 \/ d = 8 \/ d = 9) by lia.
  repeat (destruct Hcases as [->|Hcases]; [reflexivity|]). now subst d.
Qed.

Lemma is_ascii_app (a b : string) :
  is_ascii (a ++ b) = (is_ascii a && is_ascii b)%bool.
Proof.
  induction a as [|c a IH]; cbn; [reflexivity|]. now rewrite IH, andb_assoc.
Qed.

Lemma str_of_int_ascii (n : Z) : is_ascii (str_of_int n) = true.
Proof.
  assert (H : forall d, is_ascii (DecimalString.NilEmpty.string_of_uint d) = true)
    by (induction d; cbn; auto).
  assert (H' : forall d, is_ascii (NilZero.string_of_uint d) = true)
    by (intros d; destruct d; try reflexivity; apply (H (_ d))).
  unfold str_of_int, NilZero.string_of_int.
  destruct (Z.to_int n); cbn; now rewrite ?H'.
Qed.

Lemma fraction_digits_ascii (n : nat) (r d : Z) :
  0 <= r < d -> is_ascii (fraction_digits n r d) = true.
Proof.
  revert r. induction n as [|n IH]; intros r Hr; cbn [fraction_digits]; [reflexivity|].
  destruct (r =? 0)%Z; [reflexivity|]. cbn [is_ascii].
  rewrite IH by (apply Z.mod_pos_bound; lia).
  rewrite andb_true_r. apply Nat.ltb_lt.
  unfold digit_char.
  assert (0 <= 10 * r / d <= 9).
  { split; [apply Z.div_pos; lia|].
    apply Z.lt_succ_r. apply Z.div_lt_upper_bound; lia. }
  rewrite nat_ascii_embedding; lia.
Qed.

Lemma decimal_str_of_float_ascii (x : Q) : is_ascii (decimal_str_of_float x) = true.
Proof.
  unfold decimal_str_of_float.
  rewrite !is_ascii_app, str_of_int_ascii.
  assert (Hf : is_ascii (fraction_digits 17 (Z.abs (Qnum x) mod Zpos (Qden x)) (Zpos (Qden x)))
               = true)
    by (apply fraction_digits_ascii, Z.mod_pos_bound; lia).
  destruct (Qnum x <? 0)%Z;
    destruct (fraction_digits 17 (Z.abs (Qnum x) mod Zpos (Qden x)) (Zpos (Qden x)));
    cbn in *; auto.
Qed.

Definition decimal_ints : PyInt :=
  {| int_of_str := decimal_int_of_str;
     int_of_digit := decimal_int_of_digit;
     int_of_char := decimal_int_of_char |}.

Definition decimal_floats : PyFloat :=
  {| float_of_str := decimal_float_of_str;
     binary64_of_str := decimal_binary64_of_str;
     str_of_float := decimal_str_of_float;
     str_of_float_ascii := decimal_str_of_float_ascii |}.

(** ** Vocabulary of the statements *)

(** A motor under velocity control at speed [v], and the four of them. *)
Definition velocity_control (v : binary64) : Motor :=
  {| target_position := Infinity; target_velocity := v |}.

Definition all_wheels (v : binary64) : Motors :=
  {| motor1 := velocity_control v; motor2 := velocity_control v;
     motor3 := velocity_control v; motor4 := velocity_control v |}.

(** The calls of the loop over [self.wheels] at speed [v]. *)
Definition wheel_calls (v : binary64) : list event :=
  flat_map (fun wh => [ESetPosition wh Infinity; ESetVelocity wh v]) wheels.

(** The state after that loop. *)
Definition driven (v : binary64) (w : Webots) : Webots :=
  {| name := name w; basicTimeStep := basicTimeStep w; emitter := emitter w;
     receiver := receiver w; polePosSensor := polePosSensor w;
     motors := all_wheels v; calls := calls w ++ wheel_calls v |}.

(** The devices without the record of the calls. *)
Definition devices (w : Webots) : Webots :=
  {| name := name w; basicTimeStep := basicTimeStep w; emitter := emitter w;
     receiver := receiver w; polePosSensor := polePosSensor w;
     motors := motors w; calls := [] |}.

(** The same robot with [q] as the pending packets. *)
Definition with_queue (q : list (list byte)) (w : Webots) : Webots :=
  with_receiver {| receiver_channel := receiver_channel (receiver w);
                   receiver_period := receiver_period (receiver w);
                   queue := q |} w.

(** The calls of the command side of a tick: polling the queue, reading and
    releasing a packet, driving a wheel. *)
Definition is_command_call (e : event) : bool :=
  match e with
  | EGetQueueLength _ | EGetData _ | ENextPacket
  | ESetPosition _ _ | ESetVelocity _ _ => true
  | _ => false
  end.

(** [drained q cs]: [cs] are the calls of a [handle_receiver] that found the
    packets [q] pending and returned: for each packet in turn a poll that
    sees it, its read, the wheels driven, its release; then the poll that
    finds the queue empty. *)
Inductive drained : list (list byte) -> list event -> Prop :=
| drained_nil : drained [] [EGetQueueLength 0]
| drained_cons (p : list byte) (q : list (list byte)) (v : binary64) (cs : list event) :
    drained q cs ->
    drained (p :: q)
      (EGetQueueLength (S (List.length q)) :: EGetData p :: wheel_calls v
       ++ ENextPacket :: cs).

(** [run_calls cs]: [cs] are the calls of a [run].  Every pass of its loop
    is a step, the whole drain of what is then pending, one reading of the
    sensor and the one frame sent with it; the loop ends by the simulator
    stopping, by a step that returns 1, or by a command that raises. *)
Inductive run_calls `{PyFloat} : list event -> Prop :=
| run_calls_stopped : run_calls []
| run_calls_exit (ms : Z) : run_calls [EStep ms 1]
| run_calls_raised (ms r : Z) (cs : list event) :
    r <> 1 ->
    forallb is_command_call cs = true ->
    run_calls (EStep ms r :: cs)
| run_calls_pass (ms r : Z) (q : list (list byte)) (d : list event) (v : Q)
    (cs : list event) :
    r <> 1 ->
    drained q d ->
    run_calls cs ->
    run_calls (EStep ms r :: d
               ++ EGetValue v :: ESend (encode_utf8 (str (Float v))) :: cs).

(** The calls that set a channel. *)
Definition is_set_channel (e : event) : bool :=
  match e with
  | ESetChannel _ _ => true
  | _ => false
  end.

Definition channel_calls (cs : list event) : list event := filter is_set_channel cs.

(** What the channel invariant speaks of: the two channels, and the
    channel-setting calls made so far. *)
Definition channel_state (w : Webots) : Z * Z * list event :=
  (emitter_channel (emitter w), receiver_channel (receiver w),
   channel_calls (calls w)).

(** [m] leaves the channels alone, whether it returns or raises. *)
Definition keeps_channels {A} (m : Robot A) : Prop :=
  forall w, channel_state (snd (m w)) = channel_state w.

(** The speed that the discrete robot gives to an action. *)
Definition motorSpeed (action : Z) : binary64 :=
  if (action =? 0)%Z then b64 5 else b64 (-5).

(** Whether [s] is text: its bytes are well-formed UTF-8, as those of every
    string that [decode] returns or [encode] accepts are. *)
Definition is_text (s : string) : bool := well_formed_utf8 (encode_utf8 s).

(** The message that a receiver makes of the packet [p]: its bytes decoded
    and split on the commas. *)
Definition message_of (p : list byte) : outcome (list string) :=
  match decode_utf8 p with
  | Return frame => Return (decode frame)
  | Raise e => Raise e
  end.

(** What a pass of the receiving loop of the discrete robot does with the
    packet [p] it has read, before it releases it. *)
Definition use_packet `{PyInt} (p : list byte) : Robot unit :=
  message <- lift (decode_utf8 p) ;;
  MultiCartPole.use_message_data (decode message).

(** The state after one pass of the receiving loop that returns: the poll
    that saw [n] packets, the read of [p], the wheels at [v], the release. *)
Definition received (p : list byte) (n : nat) (v : binary64) (w : Webots) : Webots :=
  snd (nextPacket (driven v (logged (EGetData p) (logged (EGetQueueLength n) w)))).

(** The pole-angle field of the message the supervisor last received, read
    as a float: [None] when there is no message or no such reading. *)
Definition pole_angle_field `{PyFloat} (s : Supervisor.CartPoleSupervisor) : option Q :=
  match Supervisor.messageReceived s with
  | Some (m0 :: _) => float_of_str m0
  | _ => None
  end.

(** ** Vocabulary of the further properties *)

(** Whether the discrete robot takes the packet [p] as a command: its bytes
    are UTF-8 and its first field reads as the integer 0 or 1. *)
Definition accepted `{PyInt} (p : list byte) : bool :=
  match message_of p with
  | Return (m0 :: _) =>
      match int_of_str m0 with
      | Some action => ((action =? 0)%Z || (action =? 1)%Z)%bool
      | None => false
      end
  | _ => false
  end.


(** The float that a packet's first field reads as. *)
Definition reading `{PyFloat} (p : list byte) : option Q :=
  match message_of p with
  | Return (m0 :: _) => float_of_str m0
  | _ => None
  end.

(** The number of occurrences of [c] in [s]. *)
Fixpoint count_char (c : ascii) (s : string) : nat :=
  match s with
  | EmptyString => 0
  | String c' s' => (if Ascii.eqb c' c then 1 else 0) + count_char c s'
  end.


(** The supervisor once the packet at the head of its queue, if there is
    one, has been taken off and [m] has been stored in [messageReceived]. *)
Definition took (m : option (list string)) (s : Supervisor.CartPoleSupervisor) :
    Supervisor.CartPoleSupervisor :=
  {| Supervisor.scene :=
       {| Supervisor.robot_position := Supervisor.robot_position (Supervisor.scene s);
          Supervisor.robot_velocity := Supervisor.robot_velocity (Supervisor.scene s);
          Supervisor.poleEndpoint_velocity :=
            Supervisor.poleEndpoint_velocity (Supervisor.scene s);
          Supervisor.inbox := tl (Supervisor.inbox (Supervisor.scene s)) |};
     Supervisor.observationSpace := Supervisor.observationSpace s;
     Supervisor.actionSpace := Supervisor.actionSpace s;
     Supervisor.messageReceived := m;
     Supervisor.episodeScore := Supervisor.episodeScore s;
     Supervisor.episodeScoreList := Supervisor.episodeScoreList s;
     Supervisor.test := Supervisor.test s |}.

(** ** Worked inputs *)

(** A robot of the multi-robot world, three commands pending. *)
Definition robot3 : Webots :=
  {| name := "robot3";
     basicTimeStep := 32;
     emitter := {| emitter_channel := 0; sent := [] |};
     receiver := {| receiver_channel := 0; receiver_period := None;
                    queue := map encode_utf8 ["0"; "0"; "1"] |};
     polePosSensor := {| sensor_period := None; sensor_value := 0.05 |};
     motors := all_wheels (b64 0);
     calls := [] |}.

(** The same robot once [handle_receiver] has returned. *)
Definition robot3_drained : Webots :=
  Eval vm_compute in snd (@MultiCartPole.handle_receiver decimal_ints robot3).

(** The same robot as its constructor leaves it, and the attributes it
    computes. *)
Definition robot3_built : Webots :=
  Eval vm_compute in snd (@MultiCartPole.__init__ decimal_ints robot3).

Definition robot3_self : MultiCartPole.CartPoleRobot :=
  {| MultiCartPole.robot_num := 3; MultiCartPole.timestep := 32 |}.

(** A supervisor mid-episode: the cart at the centre, the robot's last
    message reading 0.27 rad, nothing pending. *)
Definition tilted : Supervisor.CartPoleSupervisor :=
  {| Supervisor.scene :=
       {| Supervisor.robot_position := {| x_axis := 0; y_axis := 0; z_axis := 0 |};
          Supervisor.robot_velocity :=
            {| linear_x := 0; linear_y := 0; linear_z := 0;
               angular_x := 0; angular_y := 0; angular_z := 0 |};
          Supervisor.poleEndpoint_velocity :=
            {| linear_x := 0; linear_y := 0; linear_z := 0;
               angular_x := 0; angular_y := 0; angular_z := 0 |};
          Supervisor.inbox := [] |};
     Supervisor.observationSpace := 4;
     Supervisor.actionSpace := 1;
     Supervisor.messageReceived := Some ["0.27"];
     Supervisor.episodeScore := 12;
     Supervisor.episodeScoreList := repeat 196%Q 101;
     Supervisor.test := false |}.

(** The robot with a packet that is no command between two that are. *)
Definition robot3_confused : Webots :=
  with_queue (map encode_utf8 ["1"; "2"; "0"]) robot3.

(** Two ticks of the simulator, the first bringing a command; two that
    bring nothing; and a tick whose step returns 1. *)
Definition two_ticks : list tick :=
  [ {| step_result := 0; arrivals := [encode_utf8 "1"]; pole_angle := 0.01 |};
    {| step_result := 0; arrivals := []; pole_angle := 0.02 |} ].

Definition quiet_ticks : list tick :=
  [ {| step_result := 0; arrivals := []; pole_angle := 0.01 |};
    {| step_result := -1; arrivals := []; pole_angle := 0.02 |} ].

Definition exit_tick : tick :=
  {| step_result := 1; arrivals := [encode_utf8 "0"]; pole_angle := 0 |}.

(** A supervisor at the start of an episode with the packets [q] waiting in
    its receiver. *)
Definition awaiting (q : list (list byte)) : Supervisor.CartPoleSupervisor :=
  {| Supervisor.scene :=
       {| Supervisor.robot_position := {| x_axis := 0.1; y_axis := 0; z_axis := 0 |};
          Supervisor.robot_velocity :=
            {| linear_x := 0.5; linear_y := 0; linear_z := 0;
               angular_x := 0; angular_y := 0; angular_z := 0 |};
          Supervisor.poleEndpoint_velocity :=
            {| linear_x := 0; linear_y := 0; linear_z := 0;
               angular_x := 0; angular_y := -3; angular_z := 0 |};
          Supervisor.inbox := q |};
     Supervisor.observationSpace := 4;
     Supervisor.actionSpace := 1;
     Supervisor.messageReceived := None;
     Supervisor.episodeScore := 0;
     Supervisor.episodeScoreList := [];
     Supervisor.test := false |}.

(** * Properties *)

(** ** The loop over the wheels *)

Lemma drive_wheels (v : binary64) (w : Webots) :
  for_each wheels (fun wh => setPosition wh Infinity ;; setVelocity wh v) w
  = (Return tt, driven v w).
Proof.
  destruct w as [nm bts em rc ps [m1 m2 m3 m4] cs].
  cbv -[app]. now rewrite <- !app_assoc.
Qed.

Lemma driven_velocity (v : binary64) (w : Webots) (wh : wheel_id) :
  get_motor wh (motors (driven v w)) = velocity_control v.
Proof. now destruct wh. Qed.

(** ** The discrete robot: [use_message_data] *)

Import MultiCartPole.

Lemma use_message_data_accepts `{PyInt}
    (m0 : string) (rest : list string) (action : Z) (w : Webots) :
  int_of_str m0 = Some action ->
  action = 0 \/ action = 1 ->
  use_message_data (m0 :: rest) w = (Return tt, driven (motorSpeed action) w).
Proof.
  intros Hint Hact.
  unfold use_message_data, item0, int, bind at 1 2, ret at 1.
  rewrite Hint. unfold ret at 1, bind at 1, assert.
  replace ((action =? 0)%Z || (action =? 1)%Z)%bool with true
    by (destruct Hact; subst; reflexivity).
  unfold ret at 1. apply drive_wheels.
Qed.

Lemma use_message_data_rejects `{PyInt}
    (m0 : string) (rest : list string) (action : Z) (w : Webots) :
  int_of_str m0 = Some action ->
  action <> 0 -> action <> 1 ->
  use_message_data (m0 :: rest) w
  = (Raise (AssertionError
              ("CartPoleRobot controller got incorrect action value: "
               ++ str_of_int action)), w).
Proof.
  intros Hint H0 H1.
  unfold use_message_data, item0, int, bind at 1 2, ret at 1.
  rewrite Hint. unfold ret at 1, bind at 1, assert.
  apply Z.eqb_neq in H0, H1. rewrite H0, H1. reflexivity.
Qed.

Lemma use_message_data_malformed `{PyInt}
    (m0 : string) (rest : list string) (w : Webots) :
  int_of_str m0 = None ->
  use_message_data (m0 :: rest) w = (Raise ValueError, w).
Proof.
  intros Hint.
  unfold use_message_data, item0, int, bind at 1 2, ret at 1.
  now rewrite Hint.
Qed.

(** Whether a command is accepted, and the speed it sets, depend on the
    command alone. *)
Lemma use_message_data_uniform `{PyInt} (message : list string) :
  (exists v, forall w, use_message_data message w = (Return tt, driven v w))
  \/ (exists e, forall w, use_message_data message w = (Raise e, w)).
Proof.
  destruct message as [|m0 rest].
  - right. exists IndexError. reflexivity.
  - destruct (int_of_str m0) as [action|] eqn:Hint.
    + destruct (Z.eq_dec action 0) as [H0|H0];
        [|destruct (Z.eq_dec action 1) as [H1|H1]].
      * left. eexists. intros w. apply use_message_data_accepts with (action := action); auto.
      * left. eexists. intros w. apply use_message_data_accepts with (action := action); auto.
      * right. eexists. intros w. now apply use_message_data_rejects with (action := action).
    + right. exists ValueError. intros w. now apply use_message_data_malformed.
Qed.

(** ** The discrete robot: draining the queue *)

(** A packet that decodes is used as its message is; one that does not
    raises, and nothing is done. *)
Lemma use_packet_message `{PyInt} (p : list byte) (message : list string) (w : Webots) :
  message_of p = Return message ->
  use_packet p w = use_message_data message w.
Proof.
  unfold message_of, use_packet, bind, lift.
  destruct (decode_utf8 p); [|discriminate]. now intros [= <-].
Qed.

Lemma use_packet_undecoded `{PyInt} (p : list byte) (e : exn) (w : Webots) :
  message_of p = Raise e ->
  use_packet p w = (Raise e, w).
Proof.
  unfold message_of, use_packet, bind, lift.
  destruct (decode_utf8 p); [discriminate|]. now intros [= <-].
Qed.

Lemma use_packet_returns `{PyInt} (p : list byte) (w w' : Webots) :
  use_packet p w = (Return tt, w') ->
  exists message, message_of p = Return message.
Proof.
  unfold message_of, use_packet, bind, lift.
  destruct (decode_utf8 p); [eauto|discriminate].
Qed.

Lemma use_packet_uniform `{PyInt} (p : list byte) :
  (exists v, forall w, use_packet p w = (Return tt, driven v w))
  \/ (exists e, forall w, use_packet p w = (Raise e, w)).
Proof.
  destruct (message_of p) as [message|e] eqn:Hm.
  - destruct (use_message_data_uniform message) as [[v Hv]|[e He]].
    + left. exists v. intros w. now rewrite (use_packet_message p message w Hm).
    + right. exists e. intros w. now rewrite (use_packet_message p message w Hm).
  - right. exists e. intros w. now apply use_packet_undecoded.
Qed.

Lemma receive_one_cons `{PyInt} (p : list byte) (rest : list (list byte)) (w : Webots) :
  queue (receiver w) = p :: rest ->
  receive_one w
  = match use_packet p (logged (EGetData p) w) with
    | (Return _, w1) => nextPacket w1
    | (Raise e, w1) => (Raise e, w1)
    end.
Proof.
  intros Hq. unfold receive_one, use_packet, bind at 1, getData. rewrite Hq.
  cbn [hd]. unfold bind, lift.
  destruct (decode_utf8 p); reflexivity.
Qed.

Lemma while_queued_nil (passes : nat) (body : Robot unit) (w : Webots) :
  queue (receiver w) = [] ->
  while_queued passes body w = (Return tt, logged (EGetQueueLength 0) w).
Proof.
  intros Hq. destruct passes; unfold while_queued, bind, getQueueLength; now rewrite Hq.
Qed.

Lemma while_queued_cons (passes : nat) (body : Robot unit) (w : Webots)
    (p : list byte) (rest : list (list byte)) :
  queue (receiver w) = p :: rest ->
  while_queued (S passes) body w
  = match body (logged (EGetQueueLength (S (List.length rest))) w) with
    | (Return _, w1) => while_queued passes body w1
    | (Raise e, w1) => (Raise e, w1)
    end.
Proof.
  intros Hq. cbn [while_queued]. unfold bind at 1, getQueueLength. rewrite Hq. reflexivity.
Qed.

Lemma pass_cases `{PyInt} (p : list byte) (rest : list (list byte)) (w : Webots) :
  queue (receiver w) = p :: rest ->
  let w0 := logged (EGetQueueLength (S (List.length rest))) w in
  (exists v,
      (forall w1, use_packet p w1 = (Return tt, driven v w1))
      /\ receive_one w0 = (Return tt, received p (S (List.length rest)) v w))
  \/ (exists e, receive_one w0 = (Raise e, logged (EGetData p) w0)).
Proof.
  intros Hq w0.
  assert (Hq0 : queue (receiver w0) = p :: rest) by exact Hq.
  rewrite (receive_one_cons p rest w0 Hq0).
  destruct (use_packet_uniform p) as [[v Hv]|[e He]].
  - left. exists v. split; [exact Hv|]. now rewrite Hv.
  - right. exists e. now rewrite He.
Qed.

Lemma received_queue
    (p : list byte) (rest : list (list byte)) (n : nat) (v : binary64) (w : Webots) :
  queue (receiver w) = p :: rest ->
  queue (receiver (received p n v w)) = rest.
Proof. intros Hq. cbn. now rewrite Hq. Qed.

Lemma received_devices
    (p : list byte) (rest : list (list byte)) (n : nat) (v : binary64) (w : Webots) :
  queue (receiver w) = p :: rest ->
  devices (received p n v w) = devices (with_queue rest (with_motors (all_wheels v) w)).
Proof. intros Hq. unfold devices, received. cbn. now rewrite Hq. Qed.

Lemma received_calls (p : list byte) (n : nat) (v : binary64) (w : Webots) :
  calls (received p n v w)
  = calls w ++ EGetQueueLength n :: EGetData p :: wheel_calls v ++ [ENextPacket].
Proof.
  destruct w. unfold received. cbn -[wheel_calls].
  rewrite <- !app_assoc. reflexivity.
Qed.

Lemma devices_with_queue_motors (q : list (list byte)) (ms : Motors) (w1 w2 : Webots) :
  devices w1 = devices w2 ->
  devices (with_queue q (with_motors ms w1)) = devices (with_queue q (with_motors ms w2)).
Proof.
  unfold devices, with_queue, with_motors, with_receiver; cbn.
  intros H. injection H as -> -> -> -> -> _. reflexivity.
Qed.

(** What a drain that returns leaves: the queue empty, the motors as the
    last packet sets them, the other devices as they were. *)
Lemma drain_returns `{PyInt} (q : list (list byte)) :
  forall (w w' : Webots),
    queue (receiver w) = q ->
    while_queued (List.length q) receive_one w = (Return tt, w') ->
    exists ms,
      devices w' = devices (with_queue [] (with_motors ms w))
      /\ (q = [] -> ms = motors w)
      /\ (forall earlier f, q = earlier ++ [f] ->
          exists v,
            (forall w1, use_packet f w1 = (Return tt, driven v w1))
            /\ ms = all_wheels v)
      /\ exists d, drained q d /\ calls w' = calls w ++ d.
Proof.
  induction q as [|p rest IH]; intros w w' Hq Hrun.
  - rewrite (while_queued_nil _ _ w Hq) in Hrun. injection Hrun as <-.
    exists (motors w). repeat split.
    + unfold devices, with_queue, with_motors, with_receiver; cbn.
      destruct w as [nm bts em [rc rp rq] ps ms cs]; cbn in *. now subst rq.
    + intros earlier f H0. now destruct earlier.
    + exists [EGetQueueLength 0]. split; [constructor | reflexivity].
  - cbn [List.length] in Hrun. rewrite (while_queued_cons _ _ w p rest Hq) in Hrun.
    destruct (pass_cases p rest w Hq) as [[v [Hv Hone]]|[e Hone]];
      cbv zeta in Hone; rewrite Hone in Hrun; [|discriminate].
    pose proof (received_queue p rest (S (List.length rest)) v w Hq) as Hq1.
    destruct (IH _ _ Hq1 Hrun) as [ms [Hdev [Hnil [Hlast [d [Hd Hcalls]]]]]].
    exists ms. repeat split.
    + rewrite Hdev.
      rewrite (devices_with_queue_motors [] ms _ _
                 (received_devices p rest (S (List.length rest)) v w Hq)).
      unfold devices, with_queue, with_motors, with_receiver; cbn. reflexivity.
    + discriminate.
    + intros earlier f Heq. destruct earlier as [|p' earlier'].
      * cbn in Heq. injection Heq as Hp Hr. subst f. exists v. split; [exact Hv|].
        rewrite (Hnil Hr). reflexivity.
      * cbn in Heq. injection Heq as _ Hr. now apply (Hlast earlier' f).
    + eexists. split; [apply drained_cons with (v := v); exact Hd|].
      rewrite Hcalls, received_calls. rewrite <- !app_assoc. reflexivity.
Qed.

Lemma nextPacket_returns (w : Webots) : nextPacket w = (Return tt, snd (nextPacket w)).
Proof. reflexivity. Qed.

Lemma handle_receiver_single `{PyInt} (f : list byte) (v : binary64) (w : Webots) :
  (forall w1, use_packet f w1 = (Return tt, driven v w1)) ->
  handle_receiver (with_queue [f] w)
  = (Return tt, logged (EGetQueueLength 0) (received f 1 v (with_queue [f] w))).
Proof.
  intros Hv. unfold handle_receiver.
  change (queue (receiver (with_queue [f] w))) with [f]. cbn [List.length].
  rewrite (while_queued_cons _ _ (with_queue [f] w) f [] eq_refl).
  cbn [List.length].
  rewrite (receive_one_cons f [] (logged (EGetQueueLength 1) (with_queue [f] w)) eq_refl), Hv.
  rewrite nextPacket_returns.
  apply while_queued_nil. reflexivity.
Qed.

(** C1.  If the queue holds the frames [earlier ++ [f]] when
    [handle_receiver] is called and the call returns, then the queue is
    empty, and the devices are exactly those that the same call leaves when
    [f] alone is pending: [f] decodes to a message that [use_message_data]
    accepts, the motors are as [use_message_data] sets them for that
    message, and the earlier frames have left nothing behind.  (With
    [earlier = [f1; f2]] and [f = f3] this is the case of three frames.) *)
Theorem handle_receiver_last_frame_wins `{PyInt}
    (w w' : Webots) (earlier : list (list byte)) (f : list byte) :
  queue (receiver w) = earlier ++ [f] ->
  handle_receiver w = (Return tt, w') ->
  queue (receiver w') = []
  /\ fst (handle_receiver (with_queue [f] w)) = Return tt
  /\ devices w' = devices (snd (handle_receiver (with_queue [f] w)))
  /\ exists message,
       message_of f = Return message
       /\ fst (use_message_data message w) = Return tt
       /\ motors w' = motors (snd (use_message_data message w)).
Proof.
  intros Hq Hrun. unfold handle_receiver in Hrun. rewrite Hq in Hrun.
  destruct (drain_returns (earlier ++ [f]) w w' Hq Hrun)
    as [ms [Hdev [_ [Hlast _]]]].
  destruct (Hlast earlier f eq_refl) as [v [Hv ->]].
  rewrite (handle_receiver_single f v w Hv). cbn [fst snd].
  split; [|split; [|split]].
  - now apply (f_equal (fun x => queue (receiver x))) in Hdev.
  - reflexivity.
  - rewrite Hdev. unfold devices, received, with_queue, with_motors, with_receiver.
    cbn. reflexivity.
  - destruct (use_packet_returns f w _ (Hv w)) as [message Hm].
    exists message. split; [exact Hm|].
    rewrite <- (use_packet_message f message w Hm), (Hv w). cbn [fst snd]. split.
    + reflexivity.
    + now apply (f_equal motors) in Hdev.
Qed.

Lemma handle_receiver_last_frame_wins_witness :
  queue (receiver robot3_drained) = []
  /\ fst (@handle_receiver decimal_ints (with_queue [encode_utf8 "1"] robot3)) = Return tt
  /\ devices robot3_drained
     = devices (snd (@handle_receiver decimal_ints (with_queue [encode_utf8 "1"] robot3)))
  /\ exists message,
       message_of (encode_utf8 "1") = Return message
       /\ fst (@use_message_data decimal_ints message robot3) = Return tt
       /\ motors robot3_drained
          = motors (snd (@use_message_data decimal_ints message robot3)).
Proof.
  apply (@handle_receiver_last_frame_wins decimal_ints robot3 robot3_drained
           (map encode_utf8 ["0"; "0"]) (encode_utf8 "1")); reflexivity.
Defined.

(** C5.  In the discrete robot, [use_message_data] on a command whose first
    field reads as the integer [action]: action 0 puts every wheel under
    velocity control at 5.0 (forward), action 1 at -5.0 (backward), and any
    other integer raises the assertion error and leaves the devices as they
    were, so that no motor is given a speed.  The frame "2" is of the last
    kind. *)
Theorem use_message_data_discrete `{PyInt}
    (m0 : string) (rest : list string) (action : Z) (w : Webots) :
  int_of_str m0 = Some action ->
  use_message_data (m0 :: rest) w
  = (if (action =? 0)%Z then (Return tt, driven (b64 5) w)
     else if (action =? 1)%Z then (Return tt, driven (b64 (-5)) w)
     else (Raise (AssertionError
                    ("CartPoleRobot controller got incorrect action value: "
                     ++ str_of_int action)), w))
  /\ (forall (v : binary64) (wh : wheel_id),
        get_motor wh (motors (driven v w)) = velocity_control v)
  /\ use_message_data (decode "2") w
     = (Raise (AssertionError
                 "CartPoleRobot controller got incorrect action value: 2"), w).
Proof.
  intros Hint. split; [|split].
  - destruct (action =? 0)%Z eqn:H0; [|destruct (action =? 1)%Z eqn:H1].
    + apply Z.eqb_eq in H0. subst action.
      now rewrite (use_message_data_accepts m0 rest 0 w Hint) by auto.
    + apply Z.eqb_eq in H1. subst action.
      now rewrite (use_message_data_accepts m0 rest 1 w Hint) by auto.
    + apply Z.eqb_neq in H0, H1. now apply use_message_data_rejects.
  - intros v wh. apply driven_velocity.
  - apply (use_message_data_rejects "2" [] 2 w); [|discriminate|discriminate].
    apply (int_of_digit 2). lia.
Qed.

Lemma use_message_data_discrete_witness :
  @use_message_data decimal_ints ["0"; "ignored"] robot3 = (Return tt, driven (b64 5) robot3)
  /\ (forall (v : binary64) (wh : wheel_id),
        get_motor wh (motors (driven v robot3)) = velocity_control v)
  /\ @use_message_data decimal_ints (decode "2") robot3
     = (Raise (AssertionError
                 "CartPoleRobot controller got incorrect action value: 2"), robot3).
Proof.
  apply (@use_message_data_discrete decimal_ints "0" ["ignored"] 0 robot3). reflexivity.
Defined.

(** ** The continuous robot: [use_message_data] *)

(** C10 (amended).  In the continuous robot, [use_message_data] on any
    command whose first field reads as a float [x] returns, whatever [x] is
    (finite, infinite or NaN: there is no domain check), with every one of
    the four wheels under velocity control at the binary64 product
    [x * 5.0]: all wheels get the same speed.  The product of an infinity
    by 5.0 is that infinity, that of NaN is NaN, that of a zero is that
    zero. *)
Theorem use_message_data_continuous `{PyFloat}
    (m0 : string) (rest : list string) (x : binary64) (w : Webots) :
  binary64_of_str m0 = Some x ->
  ContinuousCartPole.use_message_data (m0 :: rest) w
  = (Return tt, driven (fmul x (b64 5)) w)
  /\ (forall wh : wheel_id,
        get_motor wh (motors (driven (fmul x (b64 5)) w))
        = velocity_control (fmul x (b64 5)))
  /\ (forall s : bool, fmul (S754_infinity s) (b64 5) = S754_infinity s)
  /\ fmul S754_nan (b64 5) = S754_nan
  /\ (forall s : bool, fmul (S754_zero s) (b64 5) = S754_zero s).
Proof.
  intros Hx. split; [|split; [|split; [|split]]].
  - unfold ContinuousCartPole.use_message_data, item0, float64, bind at 1 2, ret at 1.
    rewrite Hx. unfold ret at 1. apply drive_wheels.
  - intros wh. apply driven_velocity.
  - now intros [].
  - reflexivity.
  - now intros [].
Qed.

(** The float that "0.5" reads as, and its product by 5.0, which is 2.5. *)
Lemma use_message_data_continuous_witness :
  @ContinuousCartPole.use_message_data decimal_floats ["0.5"] robot3
  = (Return tt,
     driven (fmul (S754_finite false 4503599627370496 (-53)) (b64 5)) robot3)
  /\ (forall wh : wheel_id,
        get_motor wh
          (motors (driven (fmul (S754_finite false 4503599627370496 (-53)) (b64 5)) robot3))
        = velocity_control (fmul (S754_finite false 4503599627370496 (-53)) (b64 5)))
  /\ (forall s : bool, fmul (S754_infinity s) (b64 5) = S754_infinity s)
  /\ fmul S754_nan (b64 5) = S754_nan
  /\ (forall s : bool, fmul (S754_zero s) (b64 5) = S754_zero s).
Proof.
  apply (@use_message_data_continuous decimal_floats "0.5" []
           (S754_finite false 4503599627370496 (-53)) robot3).
  reflexivity.
Defined.

(** C10 as stated fails where the product is rounded.  The command "0.57"
    reads as the float 5134103575202365 * 2^-53; the velocity that every
    wheel is given is the float 6417629469002956 * 2^-51, which is less than
    five times that value. *)
Lemma use_message_data_continuous_rounds :
  @binary64_of_str decimal_floats "0.57" = Some (S754_finite false 5134103575202365 (-53))
  /\ @ContinuousCartPole.use_message_data decimal_floats ["0.57"] robot3
     = (Return tt, driven (S754_finite false 6417629469002956 (-51)) robot3)
  /\ (exists x v : Q,
        value (S754_finite false 5134103575202365 (-53)) = Some x
        /\ value (S754_finite false 6417629469002956 (-51)) = Some v
        /\ (v < 5 * x)%Q).
Proof.
  split; [reflexivity|]. split; [reflexivity|].
  eexists. eexists. split; [reflexivity|]. split; [reflexivity|].
  vm_compute. reflexivity.
Qed.

(** ** The codec *)

Lemma split_without_comma (s : string) :
  contains comma s = false -> split comma s = [s].
Proof.
  induction s as [|c s IH]; cbn [contains split]; [reflexivity|].
  intros H. apply orb_false_iff in H as [Hc Hs].
  rewrite Hc, (IH Hs). reflexivity.
Qed.

Lemma split_field_comma (s rest : string) :
  contains comma s = false ->
  split comma (s ++ String comma rest)%string = s :: split comma rest.
Proof.
  induction s as [|c s IH]; cbn [contains split String.append].
  - intros _. reflexivity.
  - intros H. apply orb_false_iff in H as [Hc Hs].
    rewrite Hc, (IH Hs). reflexivity.
Qed.

Lemma split_join (l : list string) :
  l <> [] ->
  Forall (fun s => contains comma s = false) l ->
  split comma (join "," l) = l.
Proof.
  intros Hne Hall. induction Hall as [|s l Hs Hl IH]; [contradiction|].
  destruct l as [|s' l'].
  - cbn. now apply split_without_comma.
  - change (join "," (s :: s' :: l')) with (s ++ String comma (join "," (s' :: l')))%string.
    rewrite (split_field_comma s _ Hs), IH by discriminate. reflexivity.
Qed.

(** *** Text *)

Lemma utf8_run_app (a b : list byte) (st : utf8_state) :
  utf8_run st (a ++ b)
  = match utf8_run st a with
    | Some st' => utf8_run st' b
    | None => None
    end.
Proof.
  revert st. induction a as [|x a IH]; intros st; cbn [app utf8_run]; [reflexivity|].
  destruct (utf8_step st (Byte.to_nat x)); [apply IH|reflexivity].
Qed.

Lemma encode_utf8_app (a b : string) :
  encode_utf8 (a ++ b) = (encode_utf8 a ++ encode_utf8 b)%list.
Proof.
  unfold encode_utf8, list_byte_of_string.
  induction a as [|c a IH]; cbn [append list_ascii_of_string map app]; [reflexivity|].
  now rewrite IH.
Qed.

Lemma is_text_app (a b : string) :
  is_text a = true -> is_text b = true -> is_text (a ++ b) = true.
Proof.
  unfold is_text, well_formed_utf8. rewrite encode_utf8_app, utf8_run_app.
  destruct (utf8_run Boundary (encode_utf8 a)) as [[|lo hi more]|]; try discriminate.
  auto.
Qed.

Lemma byte_of_ascii_to_nat (c : ascii) : Byte.to_nat (byte_of_ascii c) = nat_of_ascii c.
Proof. apply Byte.to_of_nat. symmetry. apply byte_of_ascii_via_nat. Qed.

Lemma ascii_is_text (s : string) : is_ascii s = true -> is_text s = true.
Proof.
  unfold is_text, well_formed_utf8, encode_utf8, list_byte_of_string.
  induction s as [|c s IH]; cbn [is_ascii list_ascii_of_string map utf8_run]; [reflexivity|].
  intros H. apply andb_true_iff in H as [Hc Hs]. apply Nat.ltb_lt in Hc.
  rewrite byte_of_ascii_to_nat.
  assert (Hstep : utf8_step Boundary (nat_of_ascii c) = Some Boundary).
  { unfold utf8_step, between.
    replace (Nat.leb (nat_of_ascii c) 0x7F) with true
      by (symmetry; apply Nat.leb_le; cbn; lia).
    reflexivity. }
  rewrite Hstep. now apply IH.
Qed.

Lemma join_is_text (l : list string) :
  Forall (fun s => is_text s = true) l -> is_text (join "," l) = true.
Proof.
  induction 1 as [|s l Hs Hl IH]; [reflexivity|].
  destruct l as [|s' l']; [exact Hs|].
  change (join "," (s :: s' :: l')) with (s ++ "," ++ join "," (s' :: l'))%string.
  apply is_text_app; [exact Hs|]. apply is_text_app; [reflexivity|exact IH].
Qed.

Lemma decode_encode_utf8 (s : string) :
  is_text s = true -> decode_utf8 (encode_utf8 s) = Return s.
Proof.
  unfold is_text, decode_utf8. intros ->.
  unfold encode_utf8. now rewrite string_of_list_byte_of_string.
Qed.

Section Codec.
Context {F : PyFloat}.

Lemma str_is_text (v : scalar) :
  match v with Str s => is_text s = true | _ => True end ->
  is_text (str v) = true.
Proof.
  destruct v as [x|n|s]; cbn [str]; intros H.
  - apply ascii_is_text, str_of_float_ascii.
  - apply ascii_is_text, str_of_int_ascii.
  - exact H.
Qed.

(** C4 (amended).  For every non-empty sequence of scalars whose string forms
    are text and hold no comma, the frame that [handle_emitter] builds and
    encodes, decoded and split as [handle_receiver] does, is the sequence of
    their string forms, in order.  (The string forms of floats and integers
    are always text; a string field is one when its bytes are UTF-8.) *)
Theorem codec_roundtrip (xs : list scalar) :
  xs <> [] ->
  Forall (fun v => contains comma (str v) = false) xs ->
  Forall (fun v => match v with Str s => is_text s = true | _ => True end) xs ->
  message_of (encode_utf8 (encode xs)) = Return (map str xs).
Proof.
  intros Hne Hall Htext. unfold message_of, encode.
  rewrite decode_encode_utf8.
  - unfold decode. f_equal. apply split_join.
    + now destruct xs.
    + now apply Forall_map.
  - apply join_is_text, Forall_map.
    revert Htext. apply Forall_impl. exact str_is_text.
Qed.

End Codec.

Lemma codec_roundtrip_witness :
  message_of (encode_utf8 (@encode decimal_floats [Float 0.05; Int (-3); Str "left"]))
  = Return (map (@str decimal_floats) [Float 0.05; Int (-3); Str "left"]).
Proof.
  apply (@codec_roundtrip decimal_floats [Float 0.05; Int (-3); Str "left"]).
  - discriminate.
  - repeat constructor.
  - repeat constructor.
Defined.

(** C4 as stated fails on the empty sequence: it is encoded as the empty
    frame, and the empty frame decodes to one empty field. *)
Lemma codec_roundtrip_empty :
  Forall (fun v => contains comma (@str decimal_floats v) = false) []
  /\ message_of (encode_utf8 (@encode decimal_floats [])) = Return [""]
  /\ map (@str decimal_floats) [] = [].
Proof. repeat split. constructor. Qed.

(** ** The channels *)

Lemma keeps_ret {A} (a : A) : keeps_channels (ret a).
Proof. intros w. reflexivity. Qed.

Lemma keeps_raise {A} (e : exn) : keeps_channels (@raise Webots A e).
Proof. intros w. reflexivity. Qed.

Lemma keeps_bind {A B} (m : Robot A) (k : A -> Robot B) :
  keeps_channels m -> (forall a, keeps_channels (k a)) -> keeps_channels (bind m k).
Proof.
  intros Hm Hk w. unfold bind. specialize (Hm w).
  destruct (m w) as [[a|e] w1]; cbn [snd] in *.
  - now rewrite (Hk a w1).
  - exact Hm.
Qed.

Lemma keeps_for_each {A} (l : list A) (body : A -> Robot unit) :
  (forall x, keeps_channels (body x)) -> keeps_channels (for_each l body).
Proof.
  intros Hbody. induction l as [|x l IH]; cbn [for_each].
  - apply keeps_ret.
  - apply keeps_bind; [apply Hbody | intros _; exact IH].
Qed.

Lemma channel_calls_logged (e : event) (cs : list event) :
  is_set_channel e = false -> channel_calls (cs ++ [e]) = channel_calls cs.
Proof.
  intros He. unfold channel_calls. rewrite filter_app. cbn. rewrite He.
  apply app_nil_r.
Qed.

Ltac keeps_primitive :=
  intros w; unfold channel_state; cbn;
  rewrite channel_calls_logged by reflexivity; reflexivity.

Lemma keeps_setPosition (wh : wheel_id) (p : position) : keeps_channels (setPosition wh p).
Proof. keeps_primitive. Qed.

Lemma keeps_setVelocity (wh : wheel_id) (v : binary64) : keeps_channels (setVelocity wh v).
Proof. keeps_primitive. Qed.

Lemma keeps_getQueueLength : keeps_channels getQueueLength.
Proof. keeps_primitive. Qed.

Lemma keeps_getData : keeps_channels getData.
Proof. keeps_primitive. Qed.

Lemma keeps_nextPacket : keeps_channels nextPacket.
Proof. keeps_primitive. Qed.

Lemma keeps_getValue : keeps_channels getValue.
Proof. keeps_primitive. Qed.

Lemma keeps_send (packet : list byte) : keeps_channels (send packet).
Proof. keeps_primitive. Qed.

Lemma keeps_step (t : tick) (ms : Z) : keeps_channels (step t ms).
Proof. keeps_primitive. Qed.

Lemma keeps_item0 (message : list string) : keeps_channels (item0 message).
Proof. destruct message; [apply keeps_raise | apply keeps_ret]. Qed.

Lemma keeps_lift {A} (o : outcome A) : keeps_channels (lift o).
Proof. intros w. reflexivity. Qed.

Lemma keeps_int `{PyInt} (s : string) : keeps_channels (int s).
Proof. unfold int. destruct (int_of_str s); [apply keeps_ret | apply keeps_raise]. Qed.

Lemma keeps_assert (cond : bool) (msg : string) : keeps_channels (assert cond msg).
Proof. destruct cond; [apply keeps_ret | apply keeps_raise]. Qed.

Create HintDb channels.
#[local] Hint Resolve keeps_ret keeps_raise keeps_setPosition keeps_setVelocity
  keeps_getQueueLength keeps_getData keeps_nextPacket keeps_getValue keeps_send
  keeps_step keeps_item0 keeps_lift keeps_int keeps_assert : channels.

Ltac keeps_channels_tac :=
  repeat first
    [ apply keeps_bind; [|intros ?]
    | apply keeps_for_each; intros ?
    | solve [auto with channels] ].

Lemma keeps_use_message_data `{PyInt} (message : list string) :
  keeps_channels (use_message_data message).
Proof. unfold use_message_data. keeps_channels_tac. Qed.

Lemma keeps_receive_one `{PyInt} : keeps_channels receive_one.
Proof.
  unfold receive_one. apply keeps_bind; [auto with channels|intros packet].
  apply keeps_bind; [auto with channels|intros message].
  apply keeps_bind; [apply keeps_use_message_data | intros _; auto with channels].
Qed.

Lemma keeps_while_queued (passes : nat) (body : Robot unit) :
  keeps_channels body -> keeps_channels (while_queued passes body).
Proof.
  intros Hbody. induction passes as [|passes IH]; cbn [while_queued];
    (apply keeps_bind; [auto with channels|intros n]);
    destruct (0 <? n)%nat; auto with channels.
  apply keeps_bind; [exact Hbody | intros _; exact IH].
Qed.

Lemma keeps_handle_receiver `{PyInt} : keeps_channels handle_receiver.
Proof.
  intros w. unfold handle_receiver.
  apply (keeps_while_queued _ _ keeps_receive_one).
Qed.

Section Channels.
Context {I : PyInt} {F : PyFloat}.

Lemma keeps_handle_emitter : keeps_channels handle_emitter.
Proof.
  unfold handle_emitter, create_message.
  apply keeps_bind; [keeps_channels_tac | intros data].
  apply keeps_bind; [destruct data; auto with channels | intros s; auto with channels].
Qed.

Lemma keeps_run (self : CartPoleRobot) (ticks : list tick) :
  keeps_channels (run self ticks).
Proof.
  induction ticks as [|t ticks IH]; cbn [run]; [apply keeps_ret|].
  apply keeps_bind; [auto with channels | intros r].
  destruct (negb (r =? 1)%Z); [|apply keeps_ret].
  apply keeps_bind; [|intros _; exact IH].
  unfold run_body. apply keeps_bind;
    [apply keeps_handle_receiver | intros _; apply keeps_handle_emitter].
Qed.

End Channels.

(** The devices as [__init__] leaves them for the robot number [n]. *)
Lemma init_returns `{PyInt} (w : Webots) (c : string) (n : Z) :
  last_char (name w) = Return c ->
  int_of_str c = Some n ->
  exists w1,
    __init__ w
    = (Return {| robot_num := n; timestep := int_of_float (basicTimeStep w) |}, w1)
    /\ channel_state w1
       = (n, n, channel_calls (calls w) ++ [ESetChannel TheEmitter n; ESetChannel TheReceiver n]).
Proof.
  intros Hc Hn.
  unfold __init__, bind at 1, getName.
  unfold bind at 1, lift. rewrite Hc.
  unfold bind at 1, int. rewrite Hn. unfold ret at 1.
  unfold bind at 1, getBasicTimeStep.
  unfold initialize_comms, setup_motors.
  unfold bind at 1. cbn [enable].
  unfold bind at 1. cbn [setChannel].
  unfold bind at 1. cbn [setChannel].
  unfold bind at 1. cbn [enable].
  unfold bind at 1. rewrite drive_wheels. unfold ret.
  eexists. split; [reflexivity|].
  destruct w as [nm bts em rc ps ms cs].
  unfold channel_state, channel_calls. cbn -[filter].
  rewrite !filter_app. cbn. rewrite !app_nil_r, <- app_assoc. reflexivity.
Qed.

Lemma init_reads_name `{PyInt} (w w1 : Webots) (self : CartPoleRobot) :
  __init__ w = (Return self, w1) ->
  exists c, last_char (name w) = Return c /\ int_of_str c = Some (robot_num self).
Proof.
  intros Hinit.
  destruct (last_char (name w)) as [c|e] eqn:Hc.
  - destruct (int_of_str c) as [n|] eqn:Hn.
    + destruct (init_returns w c n Hc Hn) as [w1' [Heq _]].
      rewrite Heq in Hinit. injection Hinit as <- _. now exists c.
    + exfalso. revert Hinit.
      unfold __init__, bind at 1, getName.
      unfold bind at 1, lift. rewrite Hc. unfold bind at 1, int. now rewrite Hn.
  - exfalso. revert Hinit.
    unfold __init__, bind at 1, getName. unfold bind at 1, lift. now rewrite Hc.
Qed.

Section ChannelInvariant.
Context {I : PyInt} {F : PyFloat}.

(** C8.  When the constructor of the multi-robot controller returns, the
    robot number is the integer read from the last character of the robot's
    name, the emitter and the receiver are both on the channel of that
    number, and the constructor has set each channel exactly once; and
    whatever ticks [run] then goes through, and whether it returns or
    raises, both channels are still that number and no further call has
    set a channel. *)
Theorem channels_set_once (w w1 : Webots) (self : CartPoleRobot) :
  __init__ w = (Return self, w1) ->
  (exists c, last_char (name w) = Return c /\ int_of_str c = Some (robot_num self))
  /\ channel_state w1
     = (robot_num self, robot_num self,
        channel_calls (calls w)
        ++ [ESetChannel TheEmitter (robot_num self);
            ESetChannel TheReceiver (robot_num self)])
  /\ (forall ticks : list tick,
        channel_state (snd (run self ticks w1)) = channel_state w1).
Proof.
  intros Hinit.
  destruct (init_reads_name w w1 self Hinit) as [c [Hc Hn]].
  split; [now exists c|]. split.
  - destruct (init_returns w c _ Hc Hn) as [w1' [Heq Hst]].
    rewrite Heq in Hinit. injection Hinit as _ <-. exact Hst.
  - intros ticks. apply keeps_run.
Qed.

End ChannelInvariant.

Lemma channels_set_once_witness :
  (exists c, last_char (name robot3) = Return c
             /\ @int_of_str decimal_ints c = Some (robot_num robot3_self))
  /\ channel_state robot3_built
     = (robot_num robot3_self, robot_num robot3_self,
        channel_calls (calls robot3)
        ++ [ESetChannel TheEmitter (robot_num robot3_self);
            ESetChannel TheReceiver (robot_num robot3_self)])
  /\ (forall ticks : list tick,
        channel_state (snd (@run decimal_ints decimal_floats robot3_self ticks robot3_built))
        = channel_state robot3_built).
Proof.
  apply (@channels_set_once decimal_ints decimal_floats robot3 robot3_built robot3_self).
  reflexivity.
Defined.

(** ** The order of the calls within a tick *)

Lemma wheel_calls_command (v : binary64) : forallb is_command_call (wheel_calls v) = true.
Proof. reflexivity. Qed.

Lemma drained_command (q : list (list byte)) (cs : list event) :
  drained q cs -> forallb is_command_call cs = true.
Proof.
  induction 1 as [|p q v cs _ IH]; [reflexivity|].
  cbn [forallb is_command_call andb]. rewrite forallb_app, wheel_calls_command.
  cbn. exact IH.
Qed.

(** The calls of a drain, by its outcome. *)
Lemma drain_calls `{PyInt} (q : list (list byte)) :
  forall (w : Webots),
    queue (receiver w) = q ->
    exists cs,
      calls (snd (while_queued (List.length q) receive_one w)) = calls w ++ cs
      /\ match fst (while_queued (List.length q) receive_one w) with
         | Return _ => drained q cs
         | Raise _ => forallb is_command_call cs = true
         end.
Proof.
  induction q as [|p rest IH]; intros w Hq.
  - rewrite (while_queued_nil _ _ w Hq). exists [EGetQueueLength 0].
    split; [reflexivity | constructor].
  - cbn [List.length]. rewrite (while_queued_cons _ _ w p rest Hq).
    destruct (pass_cases p rest w Hq) as [[v [_ Hone]]|[e Hone]];
      cbv zeta in Hone; rewrite Hone.
    + pose proof (received_queue p rest (S (List.length rest)) v w Hq) as Hq1.
      destruct (IH _ Hq1) as [cs [Hcalls Hshape]].
      exists (EGetQueueLength (S (List.length rest)) :: EGetData p
              :: wheel_calls v ++ ENextPacket :: cs).
      split.
      * rewrite Hcalls, received_calls, <- !app_assoc. reflexivity.
      * destruct (fst (while_queued _ _ _)).
        -- now constructor.
        -- cbn [forallb is_command_call andb].
           rewrite forallb_app, wheel_calls_command. exact Hshape.
    + exists [EGetQueueLength (S (List.length rest)); EGetData p].
      split; [|reflexivity].
      cbn [fst snd logged calls]. rewrite <- app_assoc. reflexivity.
Qed.

Section Order.
Context {I : PyInt} {F : PyFloat}.

Lemma handle_emitter_calls (w : Webots) :
  let v := sensor_value (polePosSensor w) in
  fst (handle_emitter w) = Return tt
  /\ calls (snd (handle_emitter w))
     = calls w ++ [EGetValue v; ESend (encode_utf8 (str (Float v)))].
Proof.
  destruct w as [nm bts em rc ps ms cs]. cbn -[str encode_utf8 app].
  split; [reflexivity|]. now rewrite <- app_assoc.
Qed.

Lemma run_body_calls (w : Webots) :
  exists cs,
    calls (snd (run_body w)) = calls w ++ cs
    /\ match fst (run_body w) with
       | Return _ =>
           exists d v,
             drained (queue (receiver w)) d
             /\ cs = d ++ [EGetValue v; ESend (encode_utf8 (str (Float v)))]
       | Raise _ => forallb is_command_call cs = true
       end.
Proof.
  destruct (drain_calls (queue (receiver w)) w eq_refl) as [d [Hcalls Hshape]].
  unfold run_body, bind. fold (handle_receiver w) in Hcalls, Hshape.
  destruct (handle_receiver w) as [[[]|e] w1]; cbn [fst snd] in *.
  - destruct (handle_emitter_calls w1) as [Hret Hsent]. cbv zeta in Hsent.
    destruct (handle_emitter w1) as [o w2]; cbn [fst snd] in *. subst o.
    exists (d ++ [EGetValue (sensor_value (polePosSensor w1));
                  ESend (encode_utf8 (str (Float (sensor_value (polePosSensor w1)))))]).
    split.
    + rewrite Hsent, Hcalls, <- app_assoc. reflexivity.
    + now exists d, (sensor_value (polePosSensor w1)).
  - exists d. now split.
Qed.

(** C9.  The calls that [run] makes, over any ticks and from any state, are
    pass after pass: the step, then the drain of the whole queue with the
    wheels driven for each command, down to the poll that finds the queue
    empty, and only then the one reading of the sensor and the one frame
    sent.  A pass in which a command raises ends the loop before anything
    is read or sent. *)
Theorem run_drains_before_sending (self : CartPoleRobot) (ticks : list tick) (w : Webots) :
  exists cs,
    calls (snd (run self ticks w)) = calls w ++ cs /\ run_calls cs.
Proof.
  revert w. induction ticks as [|t ticks IH]; intros w; cbn [run].
  - exists []. split; [now rewrite app_nil_r | constructor].
  - unfold bind at 1. cbn [step].
    set (w0 := logged _ _).
    destruct (Z.eqb_spec (step_result t) 1) as [H1|H1]; cbn [negb].
    + exists [EStep (timestep self) (step_result t)]. split; [reflexivity|].
      rewrite H1. constructor.
    + destruct (run_body_calls w0) as [cs [Hcalls Hshape]].
      unfold bind. destruct (run_body w0) as [[[]|e] w1]; cbn [fst snd] in *.
      * destruct Hshape as [d [v [Hd ->]]].
        destruct (IH w1) as [cs' [Hcalls' Hrun]].
        exists (EStep (timestep self) (step_result t)
                :: d ++ EGetValue v :: ESend (encode_utf8 (str (Float v))) :: cs').
        split.
        -- rewrite Hcalls', Hcalls. subst w0. cbn [logged calls].
           rewrite <- !app_assoc. reflexivity.
        -- now apply run_calls_pass with (q := queue (receiver w0)).
      * exists (EStep (timestep self) (step_result t) :: cs). split.
        -- rewrite Hcalls. subst w0. cbn [logged calls].
           rewrite <- app_assoc. reflexivity.
        -- now constructor.
Qed.

End Order.

(** ** Comparisons of floats *)

Lemma Qgtb_true (a b : Q) : Qgtb a b = true <-> (b < a)%Q.
Proof.
  unfold Qgtb. rewrite negb_true_iff, <- not_true_iff_false, Qle_bool_iff.
  split; [apply Qnot_le_lt | apply Qlt_not_le].
Qed.

Lemma Qgtb_false (a b : Q) : Qgtb a b = false <-> (a <= b)%Q.
Proof. unfold Qgtb. rewrite negb_false_iff. apply Qle_bool_iff. Qed.

(** ** Normalisation *)

Section Normalize.
Variables lo hi : Q.
Hypothesis lo_lt_hi : (lo < hi)%Q.

Local Open Scope Q_scope.

Let k : Q := / (hi - lo).




Lemma normalize_clipped (v a b : Q) :
  a <= b ->
  let y := normalizeToRange v lo hi a b false in
  (y < a /\ normalizeToRange v lo hi a b true == a)
  \/ (b < y /\ normalizeToRange v lo hi a b true == b)
  \/ (a <= y <= b /\ normalizeToRange v lo hi a b true == y).
Proof.
  intros Hab y. unfold normalizeToRange in *. fold y.
  destruct (Qgtb a y) eqn:Ha.
  - left. apply Qgtb_true in Ha. now split.
  - apply Qgtb_false in Ha. destruct (Qgtb y b) eqn:Hb.
    + right; left. apply Qgtb_true in Hb. now split.
    + right; right. apply Qgtb_false in Hb. repeat split; trivial; reflexivity.
Qed.


End Normalize.



(** ** The supervisor *)

Section SupervisorFacts.
Context {F : PyFloat}.
Import Supervisor.

(** C3.  [solved] is true exactly when the history holds more than 100
    scores and the mean of its last 100 is above 195.0; it is false for
    every history of at most 100 scores, and true for a history of 101
    scores whose last 100 have mean 196.0. *)
Theorem solved_iff (s : CartPoleSupervisor) :
  (solved s = true <->
     (100 < List.length (episodeScoreList s))%nat
     /\ (195 < mean (last_n 100 (episodeScoreList s)))%Q)
  /\ ((List.length (episodeScoreList s) <= 100)%nat -> solved s = false)
  /\ (List.length (episodeScoreList s) = 101%nat ->
      (mean (last_n 100 (episodeScoreList s)) == 196)%Q ->
      solved s = true).
Proof.
  unfold solved.
  destruct (Nat.ltb_spec 100 (List.length (episodeScoreList s))) as [Hlen|Hlen].
  - destruct (Qgtb (mean (last_n 100 (episodeScoreList s))) 195) eqn:Hmean.
    + apply Qgtb_true in Hmean.
      split; [split; [intros _; now split | reflexivity]|].
      split; [intros Hle; lia | reflexivity].
    + apply Qgtb_false in Hmean.
      split; [split; [discriminate | intros [_ Hgt]; lra]|].
      split; [reflexivity|]. intros _ Heq. rewrite Heq in Hmean. lra.
  - split; [split; [discriminate | intros [Hgt _]; lia]|].
    split; [reflexivity | intros Heq; lia].
Qed.

(** C6.  With nothing in the queue, [get_observations] returns, never
    raises: it records that no message came, and the observation has four
    fields, the pole angle being the default 0.0.  The default observation
    is the vector of zeros of the width [observationSpace], which the
    constructor sets to 4. *)
Theorem get_observations_without_message (s : CartPoleSupervisor) :
  inbox (scene s) = [] ->
  get_observations s
  = (Return
       [normalizeToRange (x_axis (robot_position (scene s))) (-0.4) 0.4 (-1) 1 false;
        normalizeToRange (linear_x (robot_velocity (scene s))) (-0.2) 0.2 (-1) 1 true;
        0%Q;
        normalizeToRange (angular_y (poleEndpoint_velocity (scene s))) (-1.5) 1.5 (-1) 1 true],
     snd (set_messageReceived None s))
  /\ get_default_observation s = repeat 0%Q (observationSpace s)
  /\ (forall sc : Scene,
        observationSpace (__init__ sc) = 4%nat
        /\ get_default_observation (__init__ sc) = [0; 0; 0; 0]%Q).
Proof.
  intros Hq. split; [|split; [reflexivity | intros sc; split; reflexivity]].
  unfold get_observations, bind at 1, handle_receiver. rewrite Hq. reflexivity.
Qed.

End SupervisorFacts.

Section Termination.
Context {F : PyFloat}.
Import Supervisor.

Lemma is_done_unfold (s : CartPoleSupervisor) (angle : Q) :
  match messageReceived s with
  | Some message => exists x, pole_angle_field s = Some x /\ angle = round2 x
  | None => angle = 0%Q
  end ->
  is_done s
  = (Return (Qgtb (episodeScore s) 195
             || Qgtb (Qabs angle) 0.261799388
             || Qgtb (Qabs (round2 (x_axis (robot_position (scene s))))) 0.39)%bool,
     s).
Proof.
  unfold is_done, pole_angle_field.
  destruct (Qgtb (episodeScore s) 195); [reflexivity|]. cbn [orb].
  destruct (messageReceived s) as [[|m0 rest]|].
  - intros [x [Hx _]]. discriminate.
  - intros [x [Hx ->]]. unfold bind, item0, float, ret. rewrite Hx.
    destruct (Qgtb (Qabs (round2 x)) 0.261799388); [reflexivity|].
    now destruct (Qgtb _ 0.39).
  - intros ->. unfold bind, ret.
    destruct (Qgtb (Qabs 0) 0.261799388); [reflexivity|].
    now destruct (Qgtb _ 0.39).
Qed.

(** C2.  When the supervisor holds no message, or one whose first field
    reads as a float, [is_done] returns, and returns true exactly when the
    score is above 195.0, or the absolute value of that reading rounded to
    two decimals is above 0.261799388, or the absolute value of the cart's
    x position rounded to two decimals is above 0.39.  With a reading that
    rounds to 0.27 it returns true; with one that rounds to 0.26, and the
    score and the position within their bounds, it returns false. *)
Theorem is_done_iff (s : CartPoleSupervisor) :
  messageReceived s = None \/ (exists x, pole_angle_field s = Some x) ->
  exists b : bool,
    is_done s = (Return b, s)
    /\ (b = true <->
          (195 < episodeScore s)%Q
          \/ (exists x, pole_angle_field s = Some x
                        /\ (0.261799388 < Qabs (round2 x))%Q)
          \/ (0.39 < Qabs (round2 (x_axis (robot_position (scene s)))))%Q)
    /\ (forall x, pole_angle_field s = Some x -> (round2 x == 0.27)%Q -> b = true)
    /\ (forall x, pole_angle_field s = Some x -> (round2 x == 0.26)%Q ->
          (episodeScore s <= 195)%Q ->
          (Qabs (round2 (x_axis (robot_position (scene s)))) <= 0.39)%Q ->
          b = false).
Proof.
  intros Hwf.
  assert (Hangle : exists angle,
             match messageReceived s with
             | Some message => exists x, pole_angle_field s = Some x /\ angle = round2 x
             | None => angle = 0%Q
             end).
  { destruct Hwf as [Hnone|[x Hx]].
    - exists 0%Q. now rewrite Hnone.
    - exists (round2 x). destruct (messageReceived s) eqn:Hm; [now exists x|].
      unfold pole_angle_field in Hx. now rewrite Hm in Hx. }
  destruct Hangle as [angle Hangle].
  eexists. split; [exact (is_done_unfold s angle Hangle)|].
  rewrite !orb_true_iff, !Qgtb_true.
  assert (Hfield : forall x, pole_angle_field s = Some x -> angle = round2 x).
  { intros x Hx. destruct (messageReceived s) eqn:Hm.
    - destruct Hangle as [x' [Hx' ->]]. congruence.
    - unfold pole_angle_field in Hx. now rewrite Hm in Hx. }
  split; [|split].
  - split.
    + intros [[Hscore|Hang]|Hpos]; [now left | right; left | now right; right].
      destruct (messageReceived s) eqn:Hm.
      * destruct Hangle as [x [Hx ->]]. now exists x.
      * subst angle. exfalso. cbn in Hang. lra.
    + intros [Hscore|[[x [Hx Hang]]|Hpos]];
        [now left; left | left; right | now right].
      now rewrite (Hfield x Hx).
  - intros x Hx Hround. rewrite !orb_true_iff, !Qgtb_true.
    left; right. rewrite (Hfield x Hx), Hround. reflexivity.
  - intros x Hx Hround Hscore Hpos.
    apply not_true_iff_false. rewrite !orb_true_iff, !Qgtb_true.
    rewrite (Hfield x Hx), Hround. intros [[H|H]|H]; try lra.
    cbn in H. lra.
Qed.

End Termination.

(** ** The theorems at the worked supervisor *)

Lemma solved_iff_witness : Supervisor.solved tilted = true.
Proof.
  apply (proj2 (proj2 (solved_iff tilted))); reflexivity.
Defined.

Lemma get_observations_without_message_witness :
  @Supervisor.get_observations decimal_floats tilted
  = (Return
       [normalizeToRange
          (x_axis (Supervisor.robot_position (Supervisor.scene tilted)))
          (-0.4) 0.4 (-1) 1 false;
        normalizeToRange
          (linear_x (Supervisor.robot_velocity (Supervisor.scene tilted)))
          (-0.2) 0.2 (-1) 1 true;
        0%Q;
        normalizeToRange
          (angular_y (Supervisor.poleEndpoint_velocity (Supervisor.scene tilted)))
          (-1.5) 1.5 (-1) 1 true],
     snd (Supervisor.set_messageReceived None tilted))
  /\ Supervisor.get_default_observation tilted
     = repeat 0%Q (Supervisor.observationSpace tilted)
  /\ (forall sc : Supervisor.Scene,
        Supervisor.observationSpace (Supervisor.__init__ sc) = 4%nat
        /\ Supervisor.get_default_observation (Supervisor.__init__ sc)
           = [0; 0; 0; 0]%Q).
Proof.
  apply (@get_observations_without_message decimal_floats tilted). reflexivity.
Defined.

Lemma is_done_iff_witness :
  exists b : bool,
    @Supervisor.is_done decimal_floats tilted = (Return b, tilted)
    /\ (b = true <->
          (195 < Supervisor.episodeScore tilted)%Q
          \/ (exists x, @pole_angle_field decimal_floats tilted = Some x
                        /\ (0.261799388 < Qabs (round2 x))%Q)
          \/ (0.39 < Qabs (round2 (x_axis (Supervisor.robot_position
                                             (Supervisor.scene tilted)))))%Q)
    /\ (forall x, @pole_angle_field decimal_floats tilted = Some x ->
                  (round2 x == 0.27)%Q -> b = true)
    /\ (forall x, @pole_angle_field decimal_floats tilted = Some x ->
                  (round2 x == 0.26)%Q ->
                  (Supervisor.episodeScore tilted <= 195)%Q ->
                  (Qabs (round2 (x_axis (Supervisor.robot_position
                                           (Supervisor.scene tilted)))) <= 0.39)%Q ->
                  b = false).
Proof.
  apply (@is_done_iff decimal_floats tilted).
  right. exists 0.27%Q. reflexivity.
Defined.

(** The boundary of the angle test, run on the two frames. *)
Example is_done_at_27 :
  @Supervisor.is_done decimal_floats tilted = (Return true, tilted).
Proof. reflexivity. Qed.

Example is_done_at_26 :
  fst (@Supervisor.is_done decimal_floats
         (snd (Supervisor.set_messageReceived (Some ["0.26"]) tilted)))
  = Return false.
Proof. reflexivity. Qed.

(** * Further properties *)

(** ** The discrete robot: commands that are refused *)

(** X1.  In the discrete robot, [use_message_data] raises [IndexError] on an
    empty message and [ValueError] when the first field does not read as an
    integer; the fields after the first are never looked at; and whenever
    it raises, for whatever reason, nothing has been done: the devices and
    the record of calls are exactly as before. *)
Theorem use_message_data_discrete_errors `{PyInt} (w : Webots) :
  use_message_data [] w = (Raise IndexError, w)
  /\ (forall m0 rest,
        int_of_str m0 = None ->
        use_message_data (m0 :: rest) w = (Raise ValueError, w))
  /\ (forall m0 rest, use_message_data (m0 :: rest) w = use_message_data [m0] w)
  /\ (forall message e w',
        use_message_data message w = (Raise e, w') -> w' = w).
Proof.
  split; [reflexivity|].
  split; [intros m0 rest Hint; now apply use_message_data_malformed|].
  split; [reflexivity|].
  intros message e w' Hraise.
  destruct (use_message_data_uniform message) as [[v Hv]|[e0 He]].
  - rewrite Hv in Hraise. discriminate.
  - rewrite He in Hraise. now injection Hraise as _ <-.
Qed.

(** The one error of decoding. *)
Lemma message_of_raises (p : list byte) (e : exn) :
  message_of p = Raise e -> e = UnicodeDecodeError /\ well_formed_utf8 p = false.
Proof.
  unfold message_of, decode_utf8.
  destruct (well_formed_utf8 p); [discriminate|]. now intros [= <-].
Qed.

Lemma accepted_message `{PyInt} (p : list byte) :
  accepted p = true -> exists m0 rest, message_of p = Return (m0 :: rest).
Proof.
  unfold accepted. destruct (message_of p) as [[|m0 rest]|e]; try discriminate.
  intros _. now exists m0, rest.
Qed.

Lemma accepted_cases `{PyInt} (p : list byte) :
  if accepted p
  then exists v, forall w, use_packet p w = (Return tt, driven v w)
  else exists e, forall w, use_packet p w = (Raise e, w).
Proof.
  unfold accepted. destruct (message_of p) as [[|m0 rest]|e] eqn:Hm.
  - exists IndexError. intros w. now rewrite (use_packet_message p [] w Hm).
  - destruct (int_of_str m0) as [action|] eqn:Hint.
    + destruct ((action =? 0)%Z || (action =? 1)%Z)%bool eqn:Hact.
      * exists (motorSpeed action). intros w.
        rewrite (use_packet_message p (m0 :: rest) w Hm).
        apply use_message_data_accepts; [exact Hint|].
        apply orb_true_iff in Hact as [H0|H0]; apply Z.eqb_eq in H0; auto.
      * apply orb_false_iff in Hact as [H0 H1].
        apply Z.eqb_neq in H0, H1. eexists. intros w.
        rewrite (use_packet_message p (m0 :: rest) w Hm).
        now apply use_message_data_rejects with (action := action).
    + exists ValueError. intros w.
      rewrite (use_packet_message p (m0 :: rest) w Hm).
      now apply use_message_data_malformed.
  - exists e. intros w. now apply use_packet_undecoded.
Qed.

(** One pass of the receiving loop, by whether the packet at the head is a
    command. *)
Lemma pass_accepted `{PyInt} (p : list byte) (rest : list (list byte)) (w : Webots) :
  queue (receiver w) = p :: rest ->
  let w0 := logged (EGetQueueLength (S (List.length rest))) w in
  if accepted p
  then exists v, receive_one w0 = (Return tt, received p (S (List.length rest)) v w)
  else exists e, receive_one w0 = (Raise e, logged (EGetData p) w0).
Proof.
  intros Hq w0.
  assert (Hq0 : queue (receiver w0) = p :: rest) by exact Hq.
  rewrite (receive_one_cons p rest w0 Hq0).
  pose proof (accepted_cases p) as Hp. destruct (accepted p).
  - destruct Hp as [v Hv]. exists v. now rewrite Hv.
  - destruct Hp as [e He]. exists e. now rewrite He.
Qed.

(** X2.  With nothing in its queue, [handle_receiver] of the discrete robot
    returns after the one poll: no packet is read, and the motors, like
    every device, are left as they were. *)
Theorem handle_receiver_empty `{PyInt} (w : Webots) :
  queue (receiver w) = [] ->
  handle_receiver w = (Return tt, logged (EGetQueueLength 0) w)
  /\ devices (logged (EGetQueueLength 0) w) = devices w.
Proof.
  intros Hq. split; [|reflexivity].
  unfold handle_receiver. rewrite Hq. now apply while_queued_nil.
Qed.

Lemma handle_receiver_empty_witness :
  @handle_receiver decimal_ints robot3_drained
  = (Return tt, logged (EGetQueueLength 0) robot3_drained)
  /\ devices (logged (EGetQueueLength 0) robot3_drained) = devices robot3_drained.
Proof. apply (@handle_receiver_empty decimal_ints robot3_drained). reflexivity. Defined.

Lemma drain_accepted `{PyInt} (q : list (list byte)) :
  forall w : Webots,
    queue (receiver w) = q ->
    (fst (while_queued (List.length q) receive_one w) = Return tt
     <-> forallb accepted q = true).
Proof.
  induction q as [|p rest IH]; intros w Hq.
  - rewrite (while_queued_nil _ _ w Hq). now split.
  - cbn [List.length forallb]. rewrite (while_queued_cons _ _ w p rest Hq).
    pose proof (pass_accepted p rest w Hq) as Hpass. cbv zeta in Hpass.
    destruct (accepted p).
    + destruct Hpass as [v Hone]. rewrite Hone. cbn [andb].
      apply IH. now apply received_queue.
    + destruct Hpass as [e Hone]. rewrite Hone. cbn [andb fst]. now split.
Qed.

(** X3.  [handle_receiver] of the discrete robot returns exactly when every
    packet in the queue is a command, that is, is UTF-8 and has a first
    field that reads as 0 or 1. *)
Theorem handle_receiver_returns_iff `{PyInt} (w : Webots) :
  fst (handle_receiver w) = Return tt
  <-> forallb accepted (queue (receiver w)) = true.
Proof. unfold handle_receiver. now apply drain_accepted. Qed.

Lemma accepted_motors `{PyInt} (f : list byte) (w1 w2 : Webots) :
  accepted f = true ->
  motors (snd (use_packet f w1)) = motors (snd (use_packet f w2)).
Proof.
  intros Hf. pose proof (accepted_cases f) as Hcases. rewrite Hf in Hcases.
  destruct Hcases as [v Hv]. now rewrite !Hv.
Qed.

Lemma drain_refused `{PyInt}
    (good : list (list byte)) (bad : list byte) (rest : list (list byte)) :
  forallb accepted good = true ->
  accepted bad = false ->
  forall w : Webots,
    queue (receiver w) = good ++ bad :: rest ->
    exists e w',
      while_queued (List.length (good ++ bad :: rest)) receive_one w = (Raise e, w')
      /\ queue (receiver w') = bad :: rest
      /\ emitter w' = emitter w
      /\ use_packet bad w' = (Raise e, w')
      /\ (good = [] -> motors w' = motors w)
      /\ (forall earlier f, good = earlier ++ [f] ->
          motors w' = motors (snd (use_packet f w))).
Proof.
  intros Hgood Hbad. induction good as [|p good IH]; intros w Hq.
  - cbn [app List.length] in *. rewrite (while_queued_cons _ _ w bad rest Hq).
    rewrite (receive_one_cons bad rest (logged _ w) Hq).
    pose proof (accepted_cases bad) as Hcases. rewrite Hbad in Hcases.
    destruct Hcases as [e He]. rewrite He.
    eexists e, _. split; [reflexivity|]. split; [exact Hq|].
    split; [reflexivity|]. split; [apply He|]. split; [reflexivity|].
    intros earlier f H0. now destruct earlier.
  - cbn [forallb] in Hgood. apply andb_true_iff in Hgood as [Hp Hgood].
    cbn [app List.length] in *.
    rewrite (while_queued_cons _ _ w p (good ++ bad :: rest) Hq).
    rewrite (receive_one_cons p _ (logged _ w) Hq).
    pose proof (accepted_cases p) as Hcases. rewrite Hp in Hcases.
    destruct Hcases as [v Hv]. rewrite Hv, nextPacket_returns.
    fold (received p (S (List.length (good ++ bad :: rest))) v w).
    destruct (IH Hgood _ (received_queue p _ (S (List.length (good ++ bad :: rest))) v w Hq))
      as [e [w' [Hrun [Hq' [Hem [Hbad' [Hnil Hlast]]]]]]].
    exists e, w'. split; [exact Hrun|]. split; [exact Hq'|].
    split; [rewrite Hem; reflexivity|]. split; [exact Hbad'|].
    split; [discriminate|].
    intros earlier f Heq. destruct earlier as [|p' earlier'].
    + cbn in Heq. injection Heq as Hp' Hg. subst f good.
      rewrite (Hnil eq_refl), Hv. reflexivity.
    + cbn in Heq. injection Heq as _ Hg. subst good.
      rewrite (Hlast earlier' f eq_refl).
      apply accepted_motors.
      rewrite forallb_app in Hgood. apply andb_true_iff in Hgood as [_ Hf].
      cbn in Hf. now rewrite andb_true_r in Hf.
Qed.

(** X4.  When the queue of the discrete robot holds commands [good], then a
    packet [bad] that is not one, then [rest], [handle_receiver] raises:
    [UnicodeDecodeError] when [bad] is not UTF-8, and otherwise the error
    that [use_message_data] raises on the message of [bad].  The commands
    before it have been carried out and released (the motors are as the
    last of them sets them, or untouched if there is none); [bad] is still
    at the head of the queue with [rest] behind it, and nothing has been
    sent. *)
Theorem handle_receiver_refused `{PyInt}
    (w : Webots) (good : list (list byte)) (bad : list byte) (rest : list (list byte)) :
  queue (receiver w) = good ++ bad :: rest ->
  forallb accepted good = true ->
  accepted bad = false ->
  exists e w',
    handle_receiver w = (Raise e, w')
    /\ match message_of bad with
       | Return message => use_message_data message w' = (Raise e, w')
       | Raise _ => e = UnicodeDecodeError
       end
    /\ queue (receiver w') = bad :: rest
    /\ emitter w' = emitter w
    /\ (good = [] -> motors w' = motors w)
    /\ (forall earlier f, good = earlier ++ [f] ->
        exists message,
          message_of f = Return message
          /\ motors w' = motors (snd (use_message_data message w))).
Proof.
  intros Hq Hgood Hbad. unfold handle_receiver. rewrite Hq.
  destruct (drain_refused good bad rest Hgood Hbad w Hq)
    as [e [w' [Hrun [Hq' [Hem [Hbad' [Hnil Hlast]]]]]]].
  exists e, w'. split; [exact Hrun|]. split; [|split; [exact Hq'|split; [exact Hem|split]]].
  - destruct (message_of bad) as [message|e'] eqn:Hm.
    + now rewrite <- (use_packet_message bad message w' Hm).
    + rewrite (use_packet_undecoded bad e' w' Hm) in Hbad'.
      injection Hbad' as <-. now apply message_of_raises in Hm.
  - exact Hnil.
  - intros earlier f Heq.
    assert (Hf : accepted f = true).
    { subst good. rewrite forallb_app in Hgood.
      apply andb_true_iff in Hgood as [_ Hf]. cbn in Hf. now rewrite andb_true_r in Hf. }
    destruct (accepted_message f Hf) as [m0 [fields Hm]].
    exists (m0 :: fields). split; [exact Hm|].
    rewrite (Hlast earlier f Heq). now rewrite (use_packet_message f _ w Hm).
Qed.

Lemma handle_receiver_refused_witness :
  exists e w',
    @handle_receiver decimal_ints robot3_confused = (Raise e, w')
    /\ match message_of (encode_utf8 "2") with
       | Return message => @use_message_data decimal_ints message w' = (Raise e, w')
       | Raise _ => e = UnicodeDecodeError
       end
    /\ queue (receiver w') = encode_utf8 "2" :: [encode_utf8 "0"]
    /\ emitter w' = emitter robot3_confused
    /\ ([encode_utf8 "1"] = [] -> motors w' = motors robot3_confused)
    /\ (forall earlier f, [encode_utf8 "1"] = earlier ++ [f] ->
        exists message,
          message_of f = Return message
          /\ motors w'
             = motors (snd (@use_message_data decimal_ints message robot3_confused))).
Proof.
  apply (@handle_receiver_refused decimal_ints robot3_confused
           [encode_utf8 "1"] (encode_utf8 "2") [encode_utf8 "0"]); reflexivity.
Defined.


(** ** The discrete robot: what it sends *)

Section Sending.
Context {I : PyInt} {F : PyFloat}.


(** X5.  [handle_emitter] of the discrete robot never raises.  It hands the
    link exactly one more packet, the UTF-8 bytes of [str] of the sensor's
    current value, and touches neither the motors nor the receiver nor the
    channel of the emitter. *)
Theorem handle_emitter_sends_one (w : Webots) :
  fst (handle_emitter w) = Return tt
  /\ sent (emitter (snd (handle_emitter w)))
     = sent (emitter w)
       ++ [encode_utf8 (str (Float (sensor_value (polePosSensor w))))]
  /\ emitter_channel (emitter (snd (handle_emitter w))) = emitter_channel (emitter w)
  /\ motors (snd (handle_emitter w)) = motors w
  /\ receiver (snd (handle_emitter w)) = receiver w
  /\ polePosSensor (snd (handle_emitter w)) = polePosSensor w.
Proof.
  destruct w as [nm bts em rc ps ms cs]. cbn -[str encode_utf8 app].
  repeat split.
Qed.

Lemma run_cons (self : CartPoleRobot) (t : tick) (ticks : list tick) (w : Webots) :
  run self (t :: ticks) w
  = if negb (step_result t =? 1)%Z
    then match run_body (snd (step t (timestep self) w)) with
         | (Return _, w1) => run self ticks w1
         | (Raise e, w1) => (Raise e, w1)
         end
    else (Return tt, snd (step t (timestep self) w)).
Proof.
  cbn [run]. unfold bind at 1. cbn [step snd].
  now destruct (negb (step_result t =? 1)%Z).
Qed.



(** X7.  [run] of the discrete robot ends at the first step that returns 1:
    the ticks after it are never reached, and in that last pass nothing is
    received and nothing is sent. *)
Theorem run_stops_at_exit
    (self : CartPoleRobot) (before after : list tick) (t : tick) (w : Webots) :
  step_result t = 1 ->
  run self (before ++ t :: after) w = run self (before ++ [t]) w
  /\ run self (t :: after) w = (Return tt, snd (step t (timestep self) w)).
Proof.
  intros Hexit. split.
  - revert w. induction before as [|t0 before IH]; intros w; cbn [app].
    + rewrite !run_cons, Hexit. reflexivity.
    + rewrite !run_cons. destruct (negb (step_result t0 =? 1)%Z); [|reflexivity].
      destruct (run_body _) as [[[]|e] w1]; [apply IH|reflexivity].
  - rewrite run_cons, Hexit. reflexivity.
Qed.


End Sending.


Lemma run_stops_at_exit_witness :
  @run decimal_ints decimal_floats robot3_self (two_ticks ++ exit_tick :: quiet_ticks) robot3
  = @run decimal_ints decimal_floats robot3_self (two_ticks ++ [exit_tick]) robot3
  /\ @run decimal_ints decimal_floats robot3_self (exit_tick :: quiet_ticks) robot3
     = (Return tt, snd (step exit_tick (timestep robot3_self) robot3)).
Proof.
  apply (@run_stops_at_exit decimal_ints decimal_floats robot3_self two_ticks quiet_ticks
           exit_tick robot3).
  reflexivity.
Defined.


(** ** The discrete robot: its constructor *)

(** The devices as the constructor leaves them. *)
Lemma init_devices `{PyInt} (w : Webots) (c : string) (n : Z) :
  last_char (name w) = Return c ->
  int_of_str c = Some n ->
  exists w1,
    __init__ w
    = (Return {| robot_num := n; timestep := int_of_float (basicTimeStep w) |}, w1)
    /\ motors w1 = all_wheels (b64 0)
    /\ receiver_period (receiver w1) = Some (int_of_float (basicTimeStep w))
    /\ sensor_period (polePosSensor w1) = Some (int_of_float (basicTimeStep w))
    /\ queue (receiver w1) = queue (receiver w)
    /\ sent (emitter w1) = sent (emitter w)
    /\ sensor_value (polePosSensor w1) = sensor_value (polePosSensor w).
Proof.
  intros Hc Hn.
  unfold __init__, bind at 1, getName.
  unfold bind at 1, lift. rewrite Hc.
  unfold bind at 1, int. rewrite Hn. unfold ret at 1.
  unfold bind at 1, getBasicTimeStep.
  unfold initialize_comms, setup_motors.
  unfold bind at 1. cbn [enable].
  unfold bind at 1. cbn [setChannel].
  unfold bind at 1. cbn [setChannel].
  unfold bind at 1. cbn [enable].
  unfold bind at 1. rewrite drive_wheels. unfold ret.
  eexists. split; [reflexivity|].
  destruct w as [nm bts em rc ps ms cs]. cbn. repeat split.
Qed.



(** X10.  The constructor of the discrete robot raises [IndexError] when the
    robot's name is empty and [ValueError] when its last character does not
    read as an integer; and when it raises, no channel has been set and no
    motor has been touched. *)
Theorem init_errors `{PyInt} (w : Webots) :
  (name w = EmptyString -> fst (__init__ w) = Raise IndexError)
  /\ (forall c, last_char (name w) = Return c -> int_of_str c = None ->
                fst (__init__ w) = Raise ValueError)
  /\ (forall e, fst (__init__ w) = Raise e ->
                channel_state (snd (__init__ w)) = channel_state w
                /\ motors (snd (__init__ w)) = motors w).
Proof.
  assert (Hidx : forall e, last_char (name w) = Raise e -> __init__ w = (Raise e, w)).
  { intros e He. unfold __init__, bind at 1, getName. unfold bind at 1, lift.
    now rewrite He. }
  assert (Hval : forall c, last_char (name w) = Return c -> int_of_str c = None ->
                           __init__ w = (Raise ValueError, w)).
  { intros c Hc Hn. unfold __init__, bind at 1, getName. unfold bind at 1, lift.
    rewrite Hc. unfold bind at 1, int. now rewrite Hn. }
  split; [|split].
  - intros Hname. rewrite (Hidx IndexError); [reflexivity|]. now rewrite Hname.
  - intros c Hc Hn. now rewrite (Hval c Hc Hn).
  - intros e He. destruct (last_char (name w)) as [c|e0] eqn:Hc.
    + destruct (int_of_str c) as [n|] eqn:Hn.
      * destruct (init_devices w c n Hc Hn) as [w1 [Heq _]].
        rewrite Heq in He. discriminate.
      * now rewrite (Hval c eq_refl Hn).
    + now rewrite (Hidx e0 eq_refl).
Qed.

(** X11.  When the constructor of the discrete robot returns, the time step
    is the basic time step of the world truncated to an integer, the
    receiver and the pole sensor are enabled at that period, all four
    wheels are under velocity control at rest, and the packets already
    queued, the frames already sent and the sensor are as they were. *)
Theorem init_leaves_robot_ready `{PyInt} (w w1 : Webots) (self : CartPoleRobot) :
  __init__ w = (Return self, w1) ->
  timestep self = int_of_float (basicTimeStep w)
  /\ receiver_period (receiver w1) = Some (timestep self)
  /\ sensor_period (polePosSensor w1) = Some (timestep self)
  /\ motors w1 = all_wheels (b64 0)
  /\ queue (receiver w1) = queue (receiver w)
  /\ sent (emitter w1) = sent (emitter w)
  /\ sensor_value (polePosSensor w1) = sensor_value (polePosSensor w).
Proof.
  intros Hinit. destruct (init_reads_name w w1 self Hinit) as [c [Hc Hn]].
  destruct (init_devices w c _ Hc Hn) as [w1' [Heq [Hm [Hr [Hs [Hq [Hsent Hv]]]]]]].
  rewrite Heq in Hinit. injection Hinit as <- <-. cbn [timestep].
  repeat (split; [assumption || reflexivity|]). assumption.
Qed.

Lemma init_leaves_robot_ready_witness :
  timestep robot3_self = int_of_float (basicTimeStep robot3)
  /\ receiver_period (receiver robot3_built) = Some (timestep robot3_self)
  /\ sensor_period (polePosSensor robot3_built) = Some (timestep robot3_self)
  /\ motors robot3_built = all_wheels (b64 0)
  /\ queue (receiver robot3_built) = queue (receiver robot3)
  /\ sent (emitter robot3_built) = sent (emitter robot3)
  /\ sensor_value (polePosSensor robot3_built) = sensor_value (polePosSensor robot3).
Proof.
  apply (@init_leaves_robot_ready decimal_ints robot3 robot3_built robot3_self).
  reflexivity.
Defined.

(** ** The continuous robot: commands that are refused, and its constructor *)

Section ContinuousErrors.
Context {F : PyFloat}.

(** X12.  In the continuous robot, [use_message_data] raises [IndexError] on
    an empty message and [ValueError] when the first field does not read as
    a float; it never looks at the fields after the first; and whenever it
    raises, the devices and the record of calls are exactly as before. *)
Theorem use_message_data_continuous_errors (w : Webots) :
  ContinuousCartPole.use_message_data [] w = (Raise IndexError, w)
  /\ (forall m0 rest,
        binary64_of_str m0 = None ->
        ContinuousCartPole.use_message_data (m0 :: rest) w = (Raise ValueError, w))
  /\ (forall m0 rest,
        ContinuousCartPole.use_message_data (m0 :: rest) w
        = ContinuousCartPole.use_message_data [m0] w)
  /\ (forall message e w',
        ContinuousCartPole.use_message_data message w = (Raise e, w') -> w' = w).
Proof.
  assert (Hval : forall m0 rest, binary64_of_str m0 = None ->
            ContinuousCartPole.use_message_data (m0 :: rest) w = (Raise ValueError, w)).
  { intros m0 rest Hx.
    unfold ContinuousCartPole.use_message_data, item0, float64, bind at 1 2, ret at 1.
    now rewrite Hx. }
  split; [reflexivity|]. split; [exact Hval|]. split; [reflexivity|].
  intros [|m0 rest] e w' Hraise.
  - now injection Hraise as _ <-.
  - destruct (binary64_of_str m0) as [x|] eqn:Hx.
    + revert Hraise.
      unfold ContinuousCartPole.use_message_data, item0, float64, bind at 1 2, ret at 1.
      rewrite Hx. unfold ret at 1. rewrite drive_wheels. discriminate.
    + rewrite (Hval m0 rest Hx) in Hraise. now injection Hraise as _ <-.
Qed.

End ContinuousErrors.

(** X13.  The constructor of the continuous robot returns with the pole
    sensor enabled at the time step and all four wheels under velocity
    control at rest; the emitter and the receiver are not touched. *)
Theorem continuous_init_leaves_robot_ready (timestep : Z) (w : Webots) :
  fst (ContinuousCartPole.__init__ timestep w) = Return tt
  /\ motors (snd (ContinuousCartPole.__init__ timestep w)) = all_wheels (b64 0)
  /\ sensor_period (polePosSensor (snd (ContinuousCartPole.__init__ timestep w)))
     = Some timestep
  /\ sensor_value (polePosSensor (snd (ContinuousCartPole.__init__ timestep w)))
     = sensor_value (polePosSensor w)
  /\ emitter (snd (ContinuousCartPole.__init__ timestep w)) = emitter w
  /\ receiver (snd (ContinuousCartPole.__init__ timestep w)) = receiver w.
Proof.
  assert (Heq : ContinuousCartPole.__init__ timestep w
                = (Return tt, driven (b64 0) (snd (enable PolePosSensor timestep w)))).
  { unfold ContinuousCartPole.__init__, bind at 1. cbn [enable snd].
    apply drive_wheels. }
  rewrite Heq. destruct w as [nm bts em rc ps ms cs]. cbn. repeat split.
Qed.

(** ** The supervisor: building the observation *)

Lemma decode_nonempty (frame : string) :
  exists m0 rest, decode frame = m0 :: rest.
Proof.
  unfold decode. induction frame as [|c s IH]; cbn [split].
  - now exists EmptyString, [].
  - destruct (Ascii.eqb c comma); [now eexists _, _|].
    destruct IH as [m0 [rest ->]]. now eexists _, _.
Qed.

Section Observation.
Context {F : PyFloat}.
Import Supervisor.

Lemma took_fields (m : option (list string)) (s : CartPoleSupervisor) :
  messageReceived (took m s) = m
  /\ inbox (scene (took m s)) = tl (inbox (scene s))
  /\ robot_position (scene (took m s)) = robot_position (scene s)
  /\ episodeScore (took m s) = episodeScore s
  /\ episodeScoreList (took m s) = episodeScoreList s
  /\ observationSpace (took m s) = observationSpace s.
Proof. repeat split. Qed.

(** What [get_observations] does, by what its receiver holds. *)
Lemma get_observations_cases (s : CartPoleSupervisor) :
  let cartPosition :=
    normalizeToRange (x_axis (robot_position (scene s))) (-0.4) 0.4 (-1) 1 false in
  let cartVelocity :=
    normalizeToRange (linear_x (robot_velocity (scene s))) (-0.2) 0.2 (-1) 1 true in
  let endpointVelocity :=
    normalizeToRange (angular_y (poleEndpoint_velocity (scene s))) (-1.5) 1.5 (-1) 1 true in
  match inbox (scene s) with
  | [] =>
      get_observations s
      = (Return [cartPosition; cartVelocity; 0%Q; endpointVelocity], took None s)
  | p :: _ =>
      match message_of p with
      | Raise e => get_observations s = (Raise e, s)
      | Return message =>
          match reading p with
          | Some x =>
              get_observations s
              = (Return [cartPosition; cartVelocity;
                         normalizeToRange x (-0.23) 0.23 (-1) 1 true; endpointVelocity],
                 took (Some message) s)
          | None =>
              get_observations s = (Raise ValueError, took (Some message) s)
          end
      end
  end.
Proof.
  cbv zeta. destruct (inbox (scene s)) as [|p rest] eqn:Hq.
  - unfold get_observations, took, bind at 1, handle_receiver. rewrite Hq.
    destruct s as [[ps vs es q] os acs mr sc scl ts]. cbn in *. now subst q.
  - unfold reading, message_of.
    destruct (decode_utf8 p) as [frame|e] eqn:Hp.
    + destruct (decode_nonempty frame) as [m0 [fields Hd]]. rewrite Hd.
      destruct (float_of_str m0) as [x|] eqn:Hx;
        unfold get_observations, took, bind at 1, handle_receiver; rewrite Hq, Hp;
        unfold bind at 1; cbn [set_messageReceived snd]; rewrite Hd;
        unfold bind at 1, bind at 1, item0, ret at 1, float; rewrite Hx;
        cbn; rewrite ?Hq; reflexivity.
    + unfold get_observations, bind at 1, handle_receiver. now rewrite Hq, Hp.
Qed.

(** A packet that reads as a float decodes. *)
Lemma reading_message (p : list byte) (x : Q) :
  reading p = Some x -> exists message, message_of p = Return message.
Proof.
  unfold reading. destruct (message_of p) as [message|e]; [eauto|discriminate].
Qed.

(** X14.  With a packet pending whose first field reads as the float [x],
    [get_observations] returns the four fields, the pole angle being [x]
    normalised from [-0.23, 0.23] with clipping; it stores the fields of
    that packet in [messageReceived] and takes that one packet, and no
    other, off the queue. *)
Theorem get_observations_with_message
    (s : CartPoleSupervisor) (p : list byte) (rest : list (list byte)) (x : Q) :
  inbox (scene s) = p :: rest ->
  reading p = Some x ->
  exists message,
    message_of p = Return message
    /\ get_observations s
       = (Return
            [normalizeToRange (x_axis (robot_position (scene s))) (-0.4) 0.4 (-1) 1 false;
             normalizeToRange (linear_x (robot_velocity (scene s))) (-0.2) 0.2 (-1) 1 true;
             normalizeToRange x (-0.23) 0.23 (-1) 1 true;
             normalizeToRange (angular_y (poleEndpoint_velocity (scene s)))
               (-1.5) 1.5 (-1) 1 true],
          took (Some message) s)
    /\ messageReceived (took (Some message) s) = Some message
    /\ inbox (scene (took (Some message) s)) = rest.
Proof.
  intros Hq Hx. destruct (reading_message p x Hx) as [message Hm].
  exists message. split; [exact Hm|].
  pose proof (get_observations_cases s) as Hobs. cbv zeta in Hobs.
  rewrite Hq, Hm, Hx in Hobs. split; [exact Hobs|].
  split; [reflexivity|]. cbn. now rewrite Hq.
Qed.

(** X15.  When the packet at the head of the queue is UTF-8 and has a first
    field that does not read as a float, [get_observations] raises
    [ValueError], but only after it has taken the packet off the queue and
    stored its fields in [messageReceived]; from then on [is_done] raises
    [ValueError] too, unless the score is above 195.0, in which case it
    returns true without looking at the message. *)
Theorem get_observations_malformed
    (s : CartPoleSupervisor) (p : list byte) (rest : list (list byte))
    (message : list string) :
  inbox (scene s) = p :: rest ->
  message_of p = Return message ->
  reading p = None ->
  let s' := took (Some message) s in
  get_observations s = (Raise ValueError, s')
  /\ messageReceived s' = Some message
  /\ inbox (scene s') = rest
  /\ is_done s'
     = (if Qgtb (episodeScore s) 195 then Return true else Raise ValueError, s').
Proof.
  intros Hq Hm Hx s'. pose proof (get_observations_cases s) as Hobs. cbv zeta in Hobs.
  rewrite Hq, Hm, Hx in Hobs. split; [exact Hobs|].
  split; [reflexivity|]. split; [cbn; now rewrite Hq|].
  unfold is_done.
  change (episodeScore s') with (episodeScore s).
  change (messageReceived s') with (Some message).
  destruct (Qgtb (episodeScore s) 195); [reflexivity|].
  unfold reading in Hx. rewrite Hm in Hx.
  unfold message_of in Hm. destruct (decode_utf8 p) as [frame|]; [|discriminate].
  injection Hm as <-.
  destruct (decode_nonempty frame) as [m0 [fields Hd]].
  rewrite Hd in Hx |- *.
  unfold bind at 1, bind at 1, item0, ret at 1, float. now rewrite Hx.
Qed.

End Observation.

Lemma get_observations_with_message_witness :
  exists message,
    message_of (encode_utf8 "0.1,spare") = Return message
    /\ @Supervisor.get_observations decimal_floats
         (awaiting [encode_utf8 "0.1,spare"; encode_utf8 "0.2"])
       = (Return
            [normalizeToRange 0.1 (-0.4) 0.4 (-1) 1 false;
             normalizeToRange 0.5 (-0.2) 0.2 (-1) 1 true;
             normalizeToRange 0.1 (-0.23) 0.23 (-1) 1 true;
             normalizeToRange (-3) (-1.5) 1.5 (-1) 1 true],
          took (Some message) (awaiting [encode_utf8 "0.1,spare"; encode_utf8 "0.2"]))
    /\ Supervisor.messageReceived
         (took (Some message) (awaiting [encode_utf8 "0.1,spare"; encode_utf8 "0.2"]))
       = Some message
    /\ Supervisor.inbox
         (Supervisor.scene
            (took (Some message) (awaiting [encode_utf8 "0.1,spare"; encode_utf8 "0.2"])))
       = [encode_utf8 "0.2"].
Proof.
  apply (@get_observations_with_message decimal_floats
           (awaiting [encode_utf8 "0.1,spare"; encode_utf8 "0.2"])
           (encode_utf8 "0.1,spare") [encode_utf8 "0.2"] 0.1%Q); reflexivity.
Defined.

Lemma get_observations_malformed_witness :
  @Supervisor.get_observations decimal_floats (awaiting [encode_utf8 "left"])
  = (Raise ValueError, took (Some ["left"]) (awaiting [encode_utf8 "left"]))
  /\ Supervisor.messageReceived (took (Some ["left"]) (awaiting [encode_utf8 "left"]))
     = Some ["left"]
  /\ Supervisor.inbox
       (Supervisor.scene (took (Some ["left"]) (awaiting [encode_utf8 "left"])))
     = []
  /\ @Supervisor.is_done decimal_floats
       (took (Some ["left"]) (awaiting [encode_utf8 "left"]))
     = (if Qgtb (Supervisor.episodeScore (awaiting [encode_utf8 "left"])) 195
        then Return true else Raise ValueError,
        took (Some ["left"]) (awaiting [encode_utf8 "left"])).
Proof.
  apply (@get_observations_malformed decimal_floats
           (awaiting [encode_utf8 "left"]) (encode_utf8 "left") [] ["left"]);
    reflexivity.
Defined.

Lemma clipped_within (v lo hi : Q) :
  (-1 <= normalizeToRange v lo hi (-1) 1 true
   /\ normalizeToRange v lo hi (-1) 1 true <= 1)%Q.
Proof.
  assert (Hab : (-1 <= 1)%Q) by lra.
  destruct (normalize_clipped lo hi v (-1) 1 Hab) as [[? E]|[[? E]|[[? ?] E]]];
    rewrite E; lra.
Qed.

Lemma cart_position_scaled (x : Q) :
  (normalizeToRange x (-0.4) 0.4 (-1) 1 false == (5 # 2) * x)%Q.
Proof. unfold normalizeToRange. field. Qed.

Section ObservationBounds.
Context {F : PyFloat}.
Import Supervisor.

(** X16.  Whenever [get_observations] returns, the observation has exactly
    four fields; the cart velocity, the pole angle and the velocity of the
    pole's end point lie within [-1, 1] whatever was measured or received;
    the cart position is not clipped: it is 2.5 times the x position, and
    lies within [-1, 1] only while the cart is within [-0.4, 0.4]. *)
Theorem get_observations_bounds
    (s s' : CartPoleSupervisor) (obs : list Q) :
  get_observations s = (Return obs, s') ->
  exists cartPosition cartVelocity poleAngle endpointVelocity : Q,
    obs = [cartPosition; cartVelocity; poleAngle; endpointVelocity]
    /\ (cartPosition == (5 # 2) * x_axis (robot_position (scene s)))%Q
    /\ ((-1 <= cartPosition /\ cartPosition <= 1)
        <-> (-0.4 <= x_axis (robot_position (scene s))
             /\ x_axis (robot_position (scene s)) <= 0.4))%Q
    /\ (-1 <= cartVelocity /\ cartVelocity <= 1)%Q
    /\ (-1 <= poleAngle /\ poleAngle <= 1)%Q
    /\ (-1 <= endpointVelocity /\ endpointVelocity <= 1)%Q.
Proof.
  intros Hobs. pose proof (get_observations_cases s) as Hcases. cbv zeta in Hcases.
  assert (Hpos := cart_position_scaled (x_axis (robot_position (scene s)))).
  destruct (inbox (scene s)) as [|p rest].
  - rewrite Hcases in Hobs. injection Hobs as <- _.
    eexists _, _, _, _. split; [reflexivity|]. split; [exact Hpos|].
    split; [rewrite Hpos; split; intros [? ?]; split; lra|].
    split; [apply clipped_within|]. split; [lra | apply clipped_within].
  - destruct (message_of p) as [message|e]; [|rewrite Hcases in Hobs; discriminate].
    destruct (reading p) as [x|].
    + rewrite Hcases in Hobs. injection Hobs as <- _.
      eexists _, _, _, _. split; [reflexivity|]. split; [exact Hpos|].
      split; [rewrite Hpos; split; intros [? ?]; split; lra|].
      split; [apply clipped_within|]. split; apply clipped_within.
    + rewrite Hcases in Hobs. discriminate.
Qed.

End ObservationBounds.

Lemma get_observations_bounds_witness :
  exists cartPosition cartVelocity poleAngle endpointVelocity : Q,
    [normalizeToRange 0.1 (-0.4) 0.4 (-1) 1 false;
     normalizeToRange 0.5 (-0.2) 0.2 (-1) 1 true;
     normalizeToRange 0.1 (-0.23) 0.23 (-1) 1 true;
     normalizeToRange (-3) (-1.5) 1.5 (-1) 1 true]
    = [cartPosition; cartVelocity; poleAngle; endpointVelocity]
    /\ (cartPosition
        == (5 # 2) * x_axis (Supervisor.robot_position
                               (Supervisor.scene
                                  (awaiting [encode_utf8 "0.1,spare"; encode_utf8 "0.2"]))))%Q
    /\ ((-1 <= cartPosition /\ cartPosition <= 1)
        <-> (-0.4 <= x_axis (Supervisor.robot_position
                               (Supervisor.scene
                                  (awaiting [encode_utf8 "0.1,spare"; encode_utf8 "0.2"])))
             /\ x_axis (Supervisor.robot_position
                          (Supervisor.scene
                             (awaiting [encode_utf8 "0.1,spare"; encode_utf8 "0.2"])))
                <= 0.4))%Q
    /\ (-1 <= cartVelocity /\ cartVelocity <= 1)%Q
    /\ (-1 <= poleAngle /\ poleAngle <= 1)%Q
    /\ (-1 <= endpointVelocity /\ endpointVelocity <= 1)%Q.
Proof.
  apply (@get_observations_bounds decimal_floats
           (awaiting [encode_utf8 "0.1,spare"; encode_utf8 "0.2"])
           (took (Some ["0.1"; "spare"])
              (awaiting [encode_utf8 "0.1,spare"; encode_utf8 "0.2"]))).
  reflexivity.
Defined.

(** ** The supervisor: where the tests of [is_done] really lie *)

(** Rounding half to even stays within one half of its argument, and lands
    on an even integer when the argument is half-way. *)
Lemma round_half_even_spec (y : Q) :
  let n := Qnum y in
  let d := Zpos (Qden y) in
  let r := round_half_even y in
  - d <= 2 * n - 2 * r * d <= d
  /\ (2 * n - 2 * r * d = d \/ 2 * n - 2 * r * d = - d -> Z.even r = true).
Proof.
  cbv zeta. unfold round_half_even.
  set (n := Qnum y). set (d := Zpos (Qden y)).
  assert (Hd : 0 < d) by (subst d; lia).
  pose proof (Z.div_mod n d ltac:(lia)) as Hdiv.
  pose proof (Z.mod_pos_bound n d Hd) as Hmod.
  set (fl := n / d) in *. set (m := n mod d) in *.
  destruct (Z.compare_spec (2 * m) d) as [Heq|Hlt|Hgt].
  - destruct (Z.even fl) eqn:Hev.
    + split; [nia|]. intros _. exact Hev.
    + split; [nia|]. intros _.
      rewrite Z.add_1_r, Z.even_succ, <- Z.negb_even, Hev. reflexivity.
  - split; [nia|]. intros [H|H]; nia.
  - split; [nia|]. intros [H|H]; nia.
Qed.

Lemma odd_not_even (r k : Z) : Z.even r = true -> r <> 2 * k + 1.
Proof.
  intros Hev ->. rewrite Z.add_comm, Z.even_add_mul_2 in Hev. discriminate.
Qed.

(** The angle test: a two-decimal rounding of 0.27 or more in size means an
    angle beyond 0.265. *)
Lemma round_beyond_27 (y : Q) :
  (27 <= round_half_even y <-> (53 # 2 < y)%Q)
  /\ (round_half_even y <= -27 <-> (y < - (53 # 2))%Q).
Proof.
  destruct (round_half_even_spec y) as [Hnear Htie]. cbv zeta in *.
  unfold Qlt. cbn [Qnum Qden Qopp].
  set (n := Qnum y) in *. set (d := Zpos (Qden y)) in *.
  set (r := round_half_even y) in *.
  assert (Hd : 0 < d) by (subst d; lia).
  split; split; intros H.
  - destruct (Z.eq_dec r 27) as [E|E].
    + assert (2 * n - 2 * r * d <> - d).
      { intros Ht. apply (odd_not_even r 13); [apply Htie; now right | lia]. }
      nia.
    + nia.
  - nia.
  - destruct (Z.eq_dec r (-27)) as [E|E].
    + assert (2 * n - 2 * r * d <> d).
      { intros Ht. apply (odd_not_even r (-14)); [apply Htie; now left | lia]. }
      nia.
    + nia.
  - nia.
Qed.

(** The position test: a two-decimal rounding of 0.40 or more in size means
    a position at or beyond 0.395. *)
Lemma round_beyond_40 (y : Q) :
  (40 <= round_half_even y <-> (79 # 2 <= y)%Q)
  /\ (round_half_even y <= -40 <-> (y <= - (79 # 2))%Q).
Proof.
  destruct (round_half_even_spec y) as [Hnear Htie]. cbv zeta in *.
  unfold Qle. cbn [Qnum Qden Qopp].
  set (n := Qnum y) in *. set (d := Zpos (Qden y)) in *.
  set (r := round_half_even y) in *.
  assert (Hd : 0 < d) by (subst d; lia).
  split; split; intros H.
  - nia.
  - destruct (Z.eq_dec r 39) as [E|E].
    + assert (2 * n - 2 * r * d <> d).
      { intros Ht. apply (odd_not_even r 19); [apply Htie; now left | lia]. }
      nia.
    + nia.
  - nia.
  - destruct (Z.eq_dec r (-39)) as [E|E].
    + assert (2 * n - 2 * r * d <> - d).
      { intros Ht. apply (odd_not_even r (-20)); [apply Htie; now right | lia]. }
      nia.
    + nia.
Qed.

Lemma Qabs_beyond (c x : Q) : (c < Qabs x <-> x < - c \/ c < x)%Q.
Proof.
  apply Qabs_case; intros Hx; split; intros H.
  - now right.
  - destruct H; lra.
  - left. lra.
  - destruct H; lra.
Qed.

Lemma Qabs_reaching (c x : Q) : (c <= Qabs x <-> x <= - c \/ c <= x)%Q.
Proof.
  apply Qabs_case; intros Hx; split; intros H.
  - now right.
  - destruct H; lra.
  - left. lra.
  - destruct H; lra.
Qed.

Lemma angle_test (x : Q) :
  (0.261799388 < Qabs (round2 x) <-> 0.265 < Qabs x)%Q.
Proof.
  rewrite !Qabs_beyond. unfold round2.
  destruct (round_beyond_27 (x * 100)) as [Hup Hdown].
  set (k := round_half_even (x * 100)) in *.
  assert (Hk1 : (0.261799388 < k # 100)%Q <-> 27 <= k)
    by (unfold Qlt; cbn; lia).
  assert (Hk2 : (k # 100 < - 0.261799388)%Q <-> k <= -27)
    by (unfold Qlt; cbn; lia).
  rewrite Hk1, Hk2, Hup, Hdown. split; intros [H|H]; (left; lra) || (right; lra).
Qed.

Lemma position_test (x : Q) :
  (0.39 < Qabs (round2 x) <-> 0.395 <= Qabs x)%Q.
Proof.
  rewrite Qabs_beyond, Qabs_reaching. unfold round2.
  destruct (round_beyond_40 (x * 100)) as [Hup Hdown].
  set (k := round_half_even (x * 100)) in *.
  assert (Hk1 : (0.39 < k # 100)%Q <-> 40 <= k)
    by (unfold Qlt; cbn; lia).
  assert (Hk2 : (k # 100 < - 0.39)%Q <-> k <= -40)
    by (unfold Qlt; cbn; lia).
  rewrite Hk1, Hk2, Hup, Hdown. split; intros [H|H]; (left; lra) || (right; lra).
Qed.

Section Thresholds.
Context {F : PyFloat}.
Import Supervisor.

(** X17.  In terms of what was measured, not of its rounding: when the
    supervisor holds no message, or one whose first field reads as a float,
    [is_done] returns true exactly when the score is above 195.0, or the
    received angle is beyond 0.265 rad in absolute value (not the 0.261799388
    of the comparison: the rounding to two decimals moves the test), or the
    cart's x position is at or beyond 0.395 in absolute value. *)
Theorem is_done_thresholds (s : CartPoleSupervisor) :
  messageReceived s = None \/ (exists x, pole_angle_field s = Some x) ->
  exists b : bool,
    is_done s = (Return b, s)
    /\ (b = true <->
          (195 < episodeScore s)%Q
          \/ (exists x, pole_angle_field s = Some x /\ (0.265 < Qabs x)%Q)
          \/ (0.395 <= Qabs (x_axis (robot_position (scene s))))%Q).
Proof.
  intros Hwf.
  assert (Hangle : exists angle,
             match messageReceived s with
             | Some message => exists x, pole_angle_field s = Some x /\ angle = round2 x
             | None => angle = 0%Q
             end).
  { destruct Hwf as [Hnone|[x Hx]].
    - exists 0%Q. now rewrite Hnone.
    - exists (round2 x). destruct (messageReceived s) eqn:Hm; [now exists x|].
      unfold pole_angle_field in Hx. now rewrite Hm in Hx. }
  destruct Hangle as [angle Hangle].
  eexists. split; [exact (is_done_unfold s angle Hangle)|].
  rewrite !orb_true_iff, !Qgtb_true, position_test.
  split.
  - intros [[Hscore|Hang]|Hpos]; [now left | right; left | now right; right].
    destruct (messageReceived s) eqn:Hm.
    + destruct Hangle as [x [Hx ->]]. exists x. split; [exact Hx|].
      now apply angle_test.
    + subst angle. exfalso. cbn in Hang. lra.
  - intros [Hscore|[[x [Hx Hang]]|Hpos]];
      [now left; left | left; right | now right].
    destruct (messageReceived s) eqn:Hm.
    + destruct Hangle as [x' [Hx' ->]].
      assert (x' = x) as -> by congruence. now apply angle_test.
    + unfold pole_angle_field in Hx. now rewrite Hm in Hx.
Qed.

(** ** The supervisor: the window of [solved] *)

Lemma last_n_app {A} (n : nat) (old recent : list A) :
  List.length recent = n ->
  last_n n (old ++ recent) = recent.
Proof.
  intros <-. unfold last_n. rewrite length_app.
  replace (List.length old + List.length recent - List.length recent)%nat
    with (List.length old + 0)%nat by lia.
  rewrite skipn_app, Nat.add_0_r, skipn_all, Nat.sub_diag. reflexivity.
Qed.

(** X18.  [solved] reads the last 100 scores and nothing before them: for
    a history made of any non-empty older part followed by 100 recent
    scores, it is true exactly when the mean of those 100 is above 195.0. *)
Theorem solved_reads_last_hundred (s : CartPoleSupervisor) (old recent : list Q) :
  episodeScoreList s = old ++ recent ->
  old <> [] ->
  List.length recent = 100%nat ->
  solved s = Qgtb (mean recent) 195.
Proof.
  intros Hlist Hold Hlen. unfold solved.
  rewrite Hlist, length_app, Hlen, (last_n_app 100 old recent Hlen).
  destruct old as [|x old]; [contradiction|]. cbn [List.length].
  replace (100 <? S (List.length old) + 100)%nat with true
    by (symmetry; apply Nat.ltb_lt; lia).
  now destruct (Qgtb (mean recent) 195).
Qed.

Lemma sum_bounds (c : Q) (l : list Q) :
  ((forall x, In x l -> x <= c) ->
   fold_right Qplus 0 l <= c * inject_Z (Z.of_nat (List.length l)))%Q
  /\ ((forall x, In x l -> c < x) -> l <> [] ->
      c * inject_Z (Z.of_nat (List.length l)) < fold_right Qplus 0 l)%Q.
Proof.
  induction l as [|a l [IHle IHlt]].
  - split; [|intros _ H; contradiction].
    intros _. cbn [fold_right List.length].
    change (inject_Z (Z.of_nat 0)) with 0%Q. lra.
  - assert (Hlen : (inject_Z (Z.of_nat (List.length (a :: l)))
                    == inject_Z (Z.of_nat (List.length l)) + 1)%Q).
    { cbn [List.length]. rewrite Nat2Z.inj_succ, <- Z.add_1_r, inject_Z_plus.
      reflexivity. }
    cbn [fold_right]. split.
    + intros Hall. rewrite Hlen.
      assert (a <= c)%Q by (apply Hall; now left).
      assert (fold_right Qplus 0 l <= c * inject_Z (Z.of_nat (List.length l)))%Q
        by (apply IHle; intros x Hx; apply Hall; now right).
      lra.
    + intros Hall _. rewrite Hlen.
      assert (c < a)%Q by (apply Hall; now left).
      destruct l as [|b l'].
      * cbn [fold_right List.length]. change (inject_Z (Z.of_nat 0)) with 0%Q. lra.
      * assert (c * inject_Z (Z.of_nat (List.length (b :: l')))
                < fold_right Qplus 0 (b :: l'))%Q
          by (apply IHlt; [intros x Hx; apply Hall; now right | discriminate]).
        lra.
Qed.

Lemma mean_bounds (c : Q) (l : list Q) :
  l <> [] ->
  ((forall x, In x l -> x <= c) -> mean l <= c)%Q
  /\ ((forall x, In x l -> c < x) -> c < mean l)%Q.
Proof.
  intros Hne. unfold mean.
  assert (Hpos : (0 < inject_Z (Z.of_nat (List.length l)))%Q).
  { destruct l; [contradiction|]. cbn [List.length].
    rewrite <- (Zlt_Qlt 0). lia. }
  destruct (sum_bounds c l) as [Hle Hlt]. split; intros Hall.
  - apply Qle_shift_div_r; [exact Hpos | now apply Hle].
  - apply Qlt_shift_div_l; [exact Hpos | now apply Hlt].
Qed.

(** X19.  [solved] follows the scores in its window: if none of the last
    100 scores is above 195.0 it is false, whatever the length of the
    history; if the history holds more than 100 scores and every one of the
    last 100 is above 195.0 it is true. *)
Theorem solved_by_scores (s : CartPoleSupervisor) :
  ((forall x, In x (last_n 100 (episodeScoreList s)) -> (x <= 195)%Q) ->
   solved s = false)
  /\ ((100 < List.length (episodeScoreList s))%nat ->
      (forall x, In x (last_n 100 (episodeScoreList s)) -> (195 < x)%Q) ->
      solved s = true).
Proof.
  unfold solved.
  destruct (Nat.ltb_spec 100 (List.length (episodeScoreList s))) as [Hlen|Hlen].
  - assert (Hne : last_n 100 (episodeScoreList s) <> []).
    { unfold last_n. intros Hnil.
      apply (f_equal (@List.length Q)) in Hnil.
      rewrite length_skipn in Hnil. cbn in Hnil. lia. }
    destruct (mean_bounds 195 _ Hne) as [Hle Hlt].
    split.
    + intros Hall. apply Hle in Hall. apply Qgtb_false in Hall. now rewrite Hall.
    + intros _ Hall. apply Hlt in Hall. apply Qgtb_true in Hall. now rewrite Hall.
  - split; [reflexivity | intros H; lia].
Qed.

End Thresholds.

Lemma is_done_thresholds_witness :
  exists b : bool,
    @Supervisor.is_done decimal_floats tilted = (Return b, tilted)
    /\ (b = true <->
          (195 < Supervisor.episodeScore tilted)%Q
          \/ (exists x, @pole_angle_field decimal_floats tilted = Some x
                        /\ (0.265 < Qabs x)%Q)
          \/ (0.395 <= Qabs (x_axis (Supervisor.robot_position
                                       (Supervisor.scene tilted))))%Q).
Proof.
  apply (@is_done_thresholds decimal_floats tilted).
  right. exists 0.27%Q. reflexivity.
Defined.

Lemma solved_reads_last_hundred_witness :
  Supervisor.solved tilted = Qgtb (Supervisor.mean (repeat 196%Q 100)) 195.
Proof.
  apply (solved_reads_last_hundred tilted [196%Q] (repeat 196%Q 100)).
  - reflexivity.
  - discriminate.
  - reflexivity.
Defined.

(** ** The codec, the other way round *)

Lemma join_split (frame : string) : join "," (split comma frame) = frame.
Proof.
  induction frame as [|c s IH]; [reflexivity|]. cbn [split].
  destruct (Ascii.eqb_spec c comma) as [->|Hc].
  - destruct (split comma s) as [|tok toks] eqn:Hs.
    + cbn in IH. now subst s.
    + change (join "," (EmptyString :: tok :: toks))
        with (String comma (join "," (tok :: toks))).
      now rewrite IH.
  - destruct (split comma s) as [|tok toks] eqn:Hs.
    + cbn in IH. now subst s.
    + rewrite <- IH. destruct toks; reflexivity.
Qed.

Lemma split_count (frame : string) :
  List.length (split comma frame) = S (count_char comma frame).
Proof.
  induction frame as [|c s IH]; [reflexivity|]. cbn [split count_char].
  destruct (Ascii.eqb c comma).
  - cbn [List.length]. now rewrite IH.
  - destruct (split comma s); [discriminate|]. exact IH.
Qed.

Lemma count_char_app (c : ascii) (a b : string) :
  count_char c (a ++ b)%string = (count_char c a + count_char c b)%nat.
Proof.
  induction a as [|x a IH]; [reflexivity|]. cbn [String.append count_char].
  rewrite IH. lia.
Qed.

Lemma join_count (l : list string) :
  l <> [] ->
  S (count_char comma (join "," l))
  = (List.length l + list_sum (map (count_char comma) l))%nat.
Proof.
  intros Hne. induction l as [|a l IH]; [contradiction|].
  destruct l as [|b l'].
  - cbn. lia.
  - change (join "," (a :: b :: l'))
      with (a ++ String comma (join "," (b :: l')))%string.
    rewrite count_char_app. cbn [count_char map list_sum List.length] in *.
    rewrite Ascii.eqb_refl.
    specialize (IH ltac:(discriminate)).
    unfold list_sum in *. cbn [fold_right] in *. lia.
Qed.

Section CodecBack.
Context {F : PyFloat}.

(** X20.  Decoding never yields an empty list of fields, and loses nothing:
    the fields that [handle_receiver] splits a frame into, sent again as
    strings the way [handle_emitter] joins them, give back the very frame,
    whatever the frame is. *)
Theorem decode_then_encode (frame : string) :
  decode frame <> []
  /\ encode (map Str (decode frame)) = frame.
Proof.
  split.
  - destruct (decode_nonempty frame) as [m0 [rest ->]]. discriminate.
  - unfold encode, decode. rewrite map_map. cbn [str]. rewrite map_id.
    apply join_split.
Qed.

(** X21.  The number of fields that come out of a frame built from a
    non-empty list of scalars whose string forms are text is the number of
    fields put in plus the number of commas inside their string forms: every
    comma in a field adds a field on the other side. *)
Theorem decode_field_count (xs : list scalar) :
  xs <> [] ->
  Forall (fun v => match v with Str s => is_text s = true | _ => True end) xs ->
  exists message,
    message_of (encode_utf8 (encode xs)) = Return message
    /\ List.length message
       = (List.length xs
          + list_sum (map (fun v => count_char comma (str v)) xs))%nat.
Proof.
  intros Hne Htext. exists (decode (encode xs)). split.
  - unfold message_of, encode. rewrite decode_encode_utf8; [reflexivity|].
    apply join_is_text, Forall_map.
    revert Htext. apply Forall_impl. exact str_is_text.
  - unfold decode, encode. rewrite split_count, join_count.
    + now rewrite length_map, map_map.
    + now destruct xs.
Qed.

End CodecBack.

Lemma decode_field_count_witness :
  exists message,
    message_of (encode_utf8 (@encode decimal_floats [Str "left,right"; Int 1]))
    = Return message
    /\ List.length message
       = (List.length [Str "left,right"; Int 1]
          + list_sum (map (fun v => count_char comma (@str decimal_floats v))
                        [Str "left,right"; Int 1]))%nat.
Proof.
  apply (@decode_field_count decimal_floats [Str "left,right"; Int 1]).
  - discriminate.
  - repeat constructor.
Defined.

(** ** From the robot's sensor to the supervisor's observation *)

Section EndToEnd.
Context {F : PyFloat}.

(** X22.  What the discrete robot sends is what the supervisor reads: if
    the string form of the sensor's value [v] holds no comma and reads back
    as the float [x], then the packet that [handle_emitter] hands to the
    link, once at the head of the supervisor's queue, makes
    [get_observations] return with [x], normalised from [-0.23, 0.23] and
    clipped, as the pole angle. *)
Theorem report_reaches_observation
    (w : Webots) (s : Supervisor.CartPoleSupervisor)
    (p : list byte) (rest : list (list byte)) (x : Q) :
  let v := sensor_value (polePosSensor w) in
  sent (emitter (snd (handle_emitter w))) = sent (emitter w) ++ [p] ->
  contains comma (str (Float v)) = false ->
  float_of_str (str (Float v)) = Some x ->
  Supervisor.inbox (Supervisor.scene s) = p :: rest ->
  reading p = Some x
  /\ fst (Supervisor.get_observations s)
     = Return
         [normalizeToRange (x_axis (Supervisor.robot_position (Supervisor.scene s)))
            (-0.4) 0.4 (-1) 1 false;
          normalizeToRange (linear_x (Supervisor.robot_velocity (Supervisor.scene s)))
            (-0.2) 0.2 (-1) 1 true;
          normalizeToRange x (-0.23) 0.23 (-1) 1 true;
          normalizeToRange
            (angular_y (Supervisor.poleEndpoint_velocity (Supervisor.scene s)))
            (-1.5) 1.5 (-1) 1 true].
Proof.
  intros v Hsent Hcomma Hread Hq. subst v.
  assert (Hone : sent (emitter (snd (handle_emitter w)))
                 = sent (emitter w)
                   ++ [encode_utf8 (str (Float (sensor_value (polePosSensor w))))])
    by (destruct w; reflexivity).
  rewrite Hone in Hsent. apply app_inv_head in Hsent. injection Hsent as <-.
  cbn [str] in *.
  assert (Hm : message_of (encode_utf8 (str_of_float (sensor_value (polePosSensor w))))
               = Return [str_of_float (sensor_value (polePosSensor w))]).
  { unfold message_of.
    rewrite decode_encode_utf8 by apply ascii_is_text, str_of_float_ascii.
    unfold decode. now rewrite (split_without_comma _ Hcomma). }
  assert (Hp : reading (encode_utf8 (str_of_float (sensor_value (polePosSensor w))))
               = Some x)
    by (unfold reading; now rewrite Hm).
  split; [exact Hp|].
  pose proof (get_observations_cases s) as Hobs. cbv zeta in Hobs.
  rewrite Hq, Hm, Hp in Hobs. now rewrite Hobs.
Qed.

End EndToEnd.

Lemma report_reaches_observation_witness :
  @reading decimal_floats (encode_utf8 "0.05") = Some (1 # 20)%Q
  /\ fst (@Supervisor.get_observations decimal_floats (awaiting [encode_utf8 "0.05"]))
     = Return
         [normalizeToRange
            (x_axis (Supervisor.robot_position
                       (Supervisor.scene (awaiting [encode_utf8 "0.05"]))))
            (-0.4) 0.4 (-1) 1 false;
          normalizeToRange
            (linear_x (Supervisor.robot_velocity
                         (Supervisor.scene (awaiting [encode_utf8 "0.05"]))))
            (-0.2) 0.2 (-1) 1 true;
          normalizeToRange (1 # 20) (-0.23) 0.23 (-1) 1 true;
          normalizeToRange
            (angular_y (Supervisor.poleEndpoint_velocity
                          (Supervisor.scene (awaiting [encode_utf8 "0.05"]))))
            (-1.5) 1.5 (-1) 1 true].
Proof.
  apply (@report_reaches_observation decimal_floats robot3
           (awaiting [encode_utf8 "0.05"]) (encode_utf8 "0.05") [] (1 # 20)%Q);
    reflexivity.
Defined.
